(** * NoctiVpn: the store, server selection and the purchase path

    A shallow embedding of [init.sql] (tables, constraints, the view
    [view_server_load], the [set_updated_at] triggers) and of the database
    helpers and handlers of [telegram_bot/index.js].

    Conventions

    - a table is the list of its rows, in the order a sequential scan yields
      them; the constraints of the schema (primary keys, UNIQUE, foreign keys)
      are checked by the statements that can break them, as the store does;
    - UUID values are their canonical text ([is_uuid]), TIMESTAMPTZ values
      are microseconds since 1970-01-01 00:00 UTC, NUMERIC(10, 2) values are
      integers counting hundredths, a nullable column is an [option];
    - [now()], [gen_random_uuid()] and [crypto.randomUUID()] are read from an
      environment [env] handed to the operation that calls them; so is what
      the program does not decide itself: which of several rows of equal
      sort key the store puts first, and whether Telegram accepts a reply.

    The Expiry Sweeper and the Node Client have no code among these sources;
    they are modelled from the specification and marked so. The registration
    bot and the schema it reads are in [Module Agent]. *)

From stdpp Require Import base numbers list sorting strings pretty gmap.

Local Open Scope Z_scope.

(** ** Data model ([init.sql]) *)

Abbreviation uuid := string (only parsing).
Abbreviation timestamptz := Z (only parsing).
Abbreviation numeric := Z (only parsing).

Inductive sub_status := active | expired | banned.

Global Instance sub_status_eq_dec : EqDecision sub_status.
Proof. solve_decision. Defined.

Record tariff := {
  tariff_id : Z;
  tariff_name : string;
  price : numeric;
  speed_limit_mbps : Z;
  xray_level : Z
}.

Record server := {
  server_id : uuid;
  slug : string;
  ip_address : string;
  domain : string;
  api_secret : string;
  api_port : Z;
  grpc_port : option Z;
  public_key : string;
  short_ids : list string;
  max_users : Z;
  is_enabled : bool;
  server_created_at : timestamptz;
  server_updated_at : timestamptz
}.

Record user := {
  user_id : uuid;
  tg_id : Z;
  username : option string;
  full_name : option string;
  language : option string;
  balance : option numeric;
  user_created_at : timestamptz;
  user_updated_at : timestamptz
}.

Record subscription := {
  sub_id : uuid;
  sub_user_id : uuid;
  sub_server_id : uuid;
  sub_tariff_id : Z;
  xray_uuid : uuid;
  email : string;
  status : sub_status;
  expire_date : timestamptz;
  sub_created_at : timestamptz;
  sub_updated_at : timestamptz
}.

Record DB := {
  tariffs : list tariff;
  servers : list server;
  users : list user;
  subscriptions : list subscription
}.

(** The rows [init.sql] seeds the tariffs table with. *)
Definition seed_tariffs : list tariff :=
  [ {| tariff_id := 1; tariff_name := "Basic"; price := 2900;
       speed_limit_mbps := 1; xray_level := 1 |};
    {| tariff_id := 2; tariff_name := "Standard"; price := 7900;
       speed_limit_mbps := 7; xray_level := 2 |};
    {| tariff_id := 3; tariff_name := "Pro"; price := 27900;
       speed_limit_mbps := 25; xray_level := 3 |};
    {| tariff_id := 4; tariff_name := "Ultra"; price := 39900;
       speed_limit_mbps := 50; xray_level := 4 |} ].

(** ** ORDER BY

    SQL fixes the order of the rows of an [ORDER BY key ASC] only up to the
    order of rows with equal keys. [ordered_by] is that specification: any
    sorted rearrangement is a possible answer. [order_by] is the one the
    model computes with. *)

Section order_by.
Context {A : Type} (key : A → Z).

Definition key_le : relation A := λ a b, key a ≤ key b.

Global Instance key_le_dec a b : Decision (key_le a b) := Z.le_dec _ _.

Definition ordered_by (rows out : list A) : Prop :=
  out ≡ₚ rows ∧ StronglySorted key_le out.

Definition order_by (rows : list A) : list A := merge_sort key_le rows.

(** [... ORDER BY key ASC LIMIT 1], read as [res.rows[0]]. *)
Definition first_ordered_by (rows : list A) (res : option A) : Prop :=
  ∃ out, ordered_by rows out ∧ head out = res.
End order_by.

(** ** The view [view_server_load]

    One row per server ([GROUP BY s.id], the primary key); [COUNT(sub.id)]
    counts the subscriptions joined to it, those on that server with status
    [active]. *)

Definition count_active (sid : uuid) (subs : list subscription) : Z :=
  Z.of_nat (length (filter (λ sub, sub_server_id sub = sid ∧ status sub = active) subs)).

Record server_load := {
  vl_id : uuid;
  vl_slug : string;
  vl_ip_address : string;
  vl_max_users : Z;
  current_users : Z
}.

Global Instance server_load_eq_dec : EqDecision server_load.
Proof. solve_decision. Defined.

(** [(s.max_users - COUNT(sub.id)) AS slots_available] *)
Definition slots_available (r : server_load) : Z :=
  vl_max_users r - current_users r.

(** [ROUND((COUNT(sub.id)::numeric / s.max_users::numeric) * 100, 1) AS
    load_percentage], in tenths of a percent. ROUND on numeric rounds halves
    away from zero; the quotient is kept to at least sixteen significant
    digits, far finer than the distance [1 / (20 * max_users)] between a
    ratio and the nearest rounding boundary it does not sit on, so the value
    is the exact ratio rounded once. The query below evaluates the column
    only on rows with [slots_available > 0], where [max_users] is positive. *)
Definition load_percentage (r : server_load) : Z :=
  (2000 * current_users r + vl_max_users r) `div` (2 * vl_max_users r).

Definition view_row (subs : list subscription) (s : server) : server_load :=
  {| vl_id := server_id s;
     vl_slug := slug s;
     vl_ip_address := ip_address s;
     vl_max_users := max_users s;
     current_users := count_active (server_id s) subs |}.

Definition view_server_load (db : DB) : list server_load :=
  view_row (subscriptions db) <$> servers db.

(** ** [db.findBestServer]

    [SELECT id FROM view_server_load WHERE slots_available > 0
     ORDER BY load_percentage ASC LIMIT 1] *)

Definition free_rows (db : DB) : list server_load :=
  filter (λ r, 0 < slots_available r) (view_server_load db).

(** Every answer the store may give. *)
Definition findBestServer_result (db : DB) (res : option server_load) : Prop :=
  first_ordered_by load_percentage (free_rows db) res.

(** One of these answers, the one that leaves rows of equal
    [load_percentage] in the order of the scan; [findBestServer] is
    [res.rows[0]], an object holding the id alone, or undefined. The
    handlers run against [findBestServer_tie] below, which takes the order
    of such rows from the store. *)
Definition findBestServer_row (db : DB) : option server_load :=
  head (order_by load_percentage (free_rows db)).

Definition findBestServer (db : DB) : option uuid :=
  vl_id <$> findBestServer_row db.

(** ** Errors, results and transactions *)

Inductive js_error :=
  | TypeError (msg : string)
  | Error (msg : string)
  | DatabaseError (constraint : string).

Inductive result (A : Type) :=
  | Ok (a : A)
  | Throw (e : js_error).
Arguments Ok {A} a.
Arguments Throw {A} e.

(** A statement run on a client inside a transaction: it returns or throws,
    and leaves the working copy of the store it has reached. What becomes of
    the working copy is decided by COMMIT or ROLLBACK. *)
Definition Tx (A : Type) : Type := DB → result A * DB.

Global Instance tx_ret : MRet Tx := λ A a w, (Ok a, w).
Global Instance tx_bind : MBind Tx := λ A B k m w,
  match m w with
  | (Ok a, w') => k a w'
  | (Throw e, w') => (Throw e, w')
  end.
Definition tx_throw {A} (e : js_error) : Tx A := λ w, (Throw e, w).

(** [BEGIN; body; COMMIT] inside [try], [ROLLBACK; throw e] in [catch]. *)
Definition transaction {A} (body : Tx A) (db : DB) : result A * DB :=
  match body db with
  | (Ok a, w) => (Ok a, w)
  | (Throw e, _) => (Throw e, db)
  end.

(** What a handler of the purchase path passes to [ctx.reply]. *)
Inductive reply :=
  | InsufficientBalanceReply (needed : numeric) (current : option numeric)
  | NoServersReply
  | SuccessReply (plan_name : string)
  | ErrorReply.

(** [env_tie] is the order the store puts rows of equal [load_percentage]
    in (lower first, then scan order); [env_reply] is [None] when Telegram
    accepts the reply and the error [ctx.reply] rejects with otherwise. *)
Record env := {
  env_now : timestamptz;
  gen_random_uuid : uuid;
  randomUUID : uuid;
  env_tie : server_load → Z;
  env_reply : reply → option js_error
}.

(** ** Row updates; the BEFORE UPDATE triggers set [updated_at] *)

Definition set_username (now : timestamptz) (name : option string) (u : user) : user :=
  {| user_id := user_id u; tg_id := tg_id u; username := name;
     full_name := full_name u; language := language u; balance := balance u;
     user_created_at := user_created_at u; user_updated_at := now |}.

Definition set_balance (now : timestamptz) (b : numeric) (u : user) : user :=
  {| user_id := user_id u; tg_id := tg_id u; username := username u;
     full_name := full_name u; language := language u; balance := Some b;
     user_created_at := user_created_at u; user_updated_at := now |}.

Definition with_users (us : list user) (db : DB) : DB :=
  {| tariffs := tariffs db; servers := servers db; users := us;
     subscriptions := subscriptions db |}.

Definition with_subscriptions (ss : list subscription) (db : DB) : DB :=
  {| tariffs := tariffs db; servers := servers db; users := users db;
     subscriptions := ss |}.

(** A NUMERIC(10, 2) column holds absolute values below 10^8. *)
Definition numeric_10_2 (x : numeric) : Prop := - (10 ^ 10) < x < 10 ^ 10.

(** The values of a SMALLINT column or parameter. *)
Definition smallint (x : Z) : Prop := - 32768 ≤ x ≤ 32767.

(** The values of a BIGINT column or parameter. *)
Definition bigint (x : Z) : Prop := - 2 ^ 63 ≤ x < 2 ^ 63.

(** The days an interval holds. *)
Definition interval_days (x : Z) : Prop := - 2147483648 ≤ x ≤ 2147483647.

(** ** [db.createUser]

    [INSERT INTO users (tg_id, username) VALUES ($1, $2)
     ON CONFLICT (tg_id) DO UPDATE SET username = $2 RETURNING *];
    an undefined [ctx.from.username] is sent as NULL. A [tgId] that is no
    BIGINT is refused; it is none of the [tg_id] column, so the check is
    made where no row has it. *)

Definition new_user (e : env) (tgId : Z) (name : option string) : user :=
  {| user_id := gen_random_uuid e; tg_id := tgId; username := name;
     full_name := None; language := Some "en"; balance := Some 0;
     user_created_at := env_now e; user_updated_at := env_now e |}.

Definition upsert_username (now : timestamptz) (tgId : Z) (name : option string)
    (u : user) : user :=
  if decide (tg_id u = tgId) then set_username now name u else u.

Definition createUser (e : env) (tgId : Z) (name : option string) (db : DB)
    : result user * DB :=
  match filter (λ u, tg_id u = tgId) (users db) with
  | u :: _ =>
      (Ok (set_username (env_now e) name u),
       with_users (upsert_username (env_now e) tgId name <$> users db) db)
  | [] =>
      if decide (bigint tgId)
      then if decide (gen_random_uuid e ∈ user_id <$> users db)
           then (Throw (DatabaseError "users_pkey"), db)
           else (Ok (new_user e tgId name),
                 with_users (users db ++ [new_user e tgId name]) db)
      else (Throw (DatabaseError "value out of range for type bigint"), db)
  end.

(** ** [db.getTariffs]: [SELECT * FROM tariffs ORDER BY price ASC] *)

Definition getTariffs (db : DB) : list tariff := order_by price (tariffs db).

(** ** [db.createSubscription] *)

(** [SELECT price FROM tariffs WHERE id = $1]; the parameter is compared
    with a SMALLINT column and is refused when it is no SMALLINT. *)
Definition select_price (tariffId : Z) : Tx (list numeric) :=
  λ w, if decide (smallint tariffId)
       then (Ok (price <$> filter (λ t, tariff_id t = tariffId) (tariffs w)), w)
       else (Throw (DatabaseError "value out of range for type smallint"), w).

(** The balance a row gets from
    [UPDATE users SET balance = balance - $1 WHERE id = $2 AND balance >= $1],
    when the row qualifies; a NULL balance compares as unknown and does not. *)
Definition debited (p : numeric) (userId : uuid) (u : user) : option numeric :=
  if decide (user_id u = userId) then
    match balance u with
    | Some b => if decide (p ≤ b) then Some (b - p) else None
    | None => None
    end
  else None.

(** The rows after the update and the ids it returns ([RETURNING id]); the
    statement fails when a new balance does not fit the column. *)
Fixpoint update_debit_rows (now : timestamptz) (p : numeric) (userId : uuid)
    (us : list user) : result (list user * list uuid) :=
  match us with
  | [] => Ok ([], [])
  | u :: us' =>
      match update_debit_rows now p userId us' with
      | Throw e => Throw e
      | Ok (rows, ids) =>
          match debited p userId u with
          | None => Ok (u :: rows, ids)
          | Some b' =>
              if decide (numeric_10_2 b')
              then Ok (set_balance now b' u :: rows, user_id u :: ids)
              else Throw (DatabaseError "numeric field overflow")
          end
      end
  end.

Definition update_debit (now : timestamptz) (p : numeric) (userId : uuid)
    : Tx (list uuid) :=
  λ w, match update_debit_rows now p userId (users w) with
       | Ok (rows, ids) => (Ok ids, with_users rows w)
       | Throw e => (Throw e, w)
       end.

(** [INSERT INTO subscriptions ...]: the primary key, [uq_xray_uuid] and the
    three foreign keys are checked; the row is appended when all hold. *)
Definition insert_subscription (row : subscription) : Tx unit :=
  λ w,
    if decide (sub_id row ∈ sub_id <$> subscriptions w)
    then (Throw (DatabaseError "subscriptions_pkey"), w)
    else if decide (xray_uuid row ∈ xray_uuid <$> subscriptions w)
    then (Throw (DatabaseError "uq_xray_uuid"), w)
    else if decide (sub_user_id row ∈ user_id <$> users w)
    then if decide (sub_server_id row ∈ server_id <$> servers w)
         then if decide (sub_tariff_id row ∈ tariff_id <$> tariffs w)
              then (Ok (), with_subscriptions (subscriptions w ++ [row]) w)
              else (Throw (DatabaseError "subscriptions_tariff_id_fkey"), w)
         else (Throw (DatabaseError "subscriptions_server_id_fkey"), w)
    else (Throw (DatabaseError "subscriptions_user_id_fkey"), w).

Definition microseconds_per_day : Z := 86400000000.

(** The TIMESTAMPTZ values: from Julian day 0 up to, not including, Julian
    day 109203528; the epoch is Julian day 2440588. *)
Definition timestamptz_range (x : timestamptz) : Prop :=
  (0 - 2440588) * microseconds_per_day ≤ x
  < (109203528 - 2440588) * microseconds_per_day.

(** [now() + interval 'N days'] as the INSERT evaluates it: refused when
    [N] is more than an interval holds or the sum is no TIMESTAMPTZ. *)
Definition add_days (now : timestamptz) (days : Z) : Tx timestamptz :=
  λ w, if decide (interval_days days)
       then if decide (timestamptz_range (now + days * microseconds_per_day))
            then (Ok (now + days * microseconds_per_day), w)
            else (Throw (DatabaseError "timestamp out of range"), w)
       else (Throw (DatabaseError "interval out of range"), w).

(** The row step 3 inserts: [id], [created_at] and [updated_at] take their
    column defaults, [expire_date] is [now() + interval 'N days'] (days of
    twenty-four hours: the session time zone has no clock change). *)
Definition new_subscription (e : env) (userId : uuid) (tariffId : Z)
    (serverId : uuid) (days : Z) : subscription :=
  let xrayUuid := randomUUID e in
  {| sub_id := gen_random_uuid e;
     sub_user_id := userId;
     sub_server_id := serverId;
     sub_tariff_id := tariffId;
     xray_uuid := xrayUuid;
     email := "user_" +:+ pretty tariffId +:+ "_" +:+ String.substring 0 8 xrayUuid;
     status := active;
     expire_date := env_now e + days * microseconds_per_day;
     sub_created_at := env_now e;
     sub_updated_at := env_now e |}.

Definition createSubscription_body (e : env) (userId : uuid) (tariffId : Z)
    (serverId : uuid) (durationDays : option Z) : Tx bool :=
  tRes ← select_price tariffId;
  p ← match tRes with
      | p :: _ => mret p
      | [] => tx_throw (TypeError "Cannot read properties of undefined (reading 'price')")
      end;
  uRes ← update_debit (env_now e) p userId;
  if decide (length uRes = 0%nat) then tx_throw (Error "Insufficient balance")
  else
    _ ← add_days (env_now e) (default 30 durationDays);
    _ ← insert_subscription
          (new_subscription e userId tariffId serverId (default 30 durationDays));
    mret true.

(** [durationDays] is [None] when the caller leaves the argument out. *)
Definition createSubscription (e : env) (userId : uuid) (tariffId : Z)
    (serverId : uuid) (durationDays : option Z) (db : DB) : result bool * DB :=
  transaction (createSubscription_body e userId tariffId serverId durationDays) db.

(** ** The purchase handler [bot.action(/^buy_(\d+)$/, ...)] *)

Inductive outcome :=
  | Replied (r : reply)
  | Rejected (e : js_error).

(** [parseFloat(ctx.user.balance) < parseFloat(plan.price)]. The driver
    hands NUMERIC values over as decimal text; on decimals of ten digits
    [parseFloat] keeps the order, and [parseFloat(null)] is NaN, which is
    below nothing. *)
Definition balance_below (b : option numeric) (p : numeric) : bool :=
  match b with
  | Some b => bool_decide (b < p)
  | None => false
  end.

(** [a] comes before [b] in [ORDER BY load_percentage ASC] when the store
    breaks ties by [tie]. *)
Definition precedes (tie : server_load → Z) (a b : server_load) : Prop :=
  load_percentage a < load_percentage b ∨
  (load_percentage a = load_percentage b ∧ tie a ≤ tie b).

Global Instance precedes_dec tie a b : Decision (precedes tie a b).
Proof. unfold precedes. apply _. Defined.

(** The first row in that order; of rows that [tie] does not tell apart,
    the one the scan meets first. *)
Fixpoint first_by (tie : server_load → Z) (rows : list server_load)
    : option server_load :=
  match rows with
  | [] => None
  | r :: rs =>
      match first_by tie rs with
      | Some m => if decide (precedes tie r m) then Some r else Some m
      | None => Some r
      end
  end.

(** [db.findBestServer] against a store that breaks ties by [tie]. *)
Definition findBestServer_tie (tie : server_load → Z) (db : DB) : option uuid :=
  vl_id <$> first_by tie (free_rows db).

(** [await ctx.reply(r)]: the reply reaches the chat, or the call rejects. *)
Definition ctx_reply (e : env) (r : reply) : outcome :=
  match env_reply e r with
  | None => Replied r
  | Some err => Rejected err
  end.

(** [tariffId] is the number the captured digits [ctx.match[1]] denote:
    [t.id == tariffId] compares a number with a string of digits. The reply
    of success is awaited inside the [try]: when it is rejected, after the
    COMMIT, the [catch] replies with the error text. *)
Definition buy (e : env) (ctx_user : user) (tariffId : Z) (db : DB)
    : outcome * DB :=
  match head (filter (λ t, tariff_id t = tariffId) (getTariffs db)) with
  | None =>
      (Rejected (TypeError "Cannot read properties of undefined (reading 'price')"), db)
  | Some plan =>
      if balance_below (balance ctx_user) (price plan)
      then (ctx_reply e (InsufficientBalanceReply (price plan) (balance ctx_user)), db)
      else
        match findBestServer_tie (env_tie e) db with
        | None => (ctx_reply e NoServersReply, db)
        | Some server =>
            match createSubscription e (user_id ctx_user) (tariff_id plan) server None db with
            | (Ok _, db') =>
                match env_reply e (SuccessReply (tariff_name plan)) with
                | None => (Replied (SuccessReply (tariff_name plan)), db')
                | Some _ => (ctx_reply e ErrorReply, db')
                end
            | (Throw _, db') => (ctx_reply e ErrorReply, db')
            end
        end
  end.

(** The middleware ([ctx.user = await db.createUser(...)]) followed by the
    handler, as one update is processed. *)
Definition handle_buy (e_mw e : env) (tgId : Z) (name : option string)
    (tariffId : Z) (db : DB) : outcome * DB :=
  match createUser e_mw tgId name db with
  | (Ok u, db1) => buy e u tariffId db1
  | (Throw err, db1) => (Rejected err, db1)
  end.

(** ** The deposit menu [bot.action("menu_deposit", ...)]

    The handler builds a transfer link for one TON with the comment
    [user-<tg_id>] and replies with its QR code and a caption that tells the
    user to send the funds with that comment; it runs no query.
    [wallet] is [ADMIN_WALLET]. *)

Record deposit_prompt := {
  deposit_comment : string;
  deposit_link : string
}.

Definition menu_deposit (wallet : string) (ctx_user : user) (db : DB)
    : deposit_prompt * DB :=
  let comment := "user-" +:+ pretty (tg_id ctx_user) in
  let amountTon := 1 in
  ({| deposit_comment := comment;
      deposit_link := "ton://transfer/" +:+ wallet +:+ "?amount="
                      +:+ pretty (amountTon * 1000000000) +:+ "&text=" +:+ comment |},
   db).

(** ** The payment watcher [setInterval(async () => { ... }, 60000)] *)

Inductive effect :=
  | Query (sql : string)
  | SendMessage (chat : Z) (text : string).

(** One run of the callback: its body holds comments and no statement. *)
Definition paymentWatcher_tick (db : DB) : list effect * DB := ([], db).

Fixpoint paymentWatcher_run (n : nat) (db : DB) : list effect * DB :=
  match n with
  | O => ([], db)
  | S n' =>
      let '(fx, db1) := paymentWatcher_tick db in
      let '(fx', db2) := paymentWatcher_run n' db1 in
      (fx ++ fx', db2)
  end.

(** ** Runs of the bot *)

Inductive event :=
  | Update (e : env) (tgId : Z) (name : option string)
  | BuyAction (e : env) (ctx_user : user) (tariffId : Z)
  | CreateSubscription (e : env) (userId : uuid) (tariffId : Z)
      (serverId : uuid) (durationDays : option Z)
  | WatcherTick.

Definition run_event (ev : event) (db : DB) : DB :=
  match ev with
  | Update e tgId name => (createUser e tgId name db).2
  | BuyAction e u tariffId => (buy e u tariffId db).2
  | CreateSubscription e userId tariffId serverId days =>
      (createSubscription e userId tariffId serverId days db).2
  | WatcherTick => (paymentWatcher_tick db).2
  end.

(** A run starts from a store without subscriptions; its plans, servers and
    users are whatever the operator has set up (no code of the bot inserts a
    server or credits a balance). *)
Inductive reachable : DB → Prop :=
  | reachable_init db : subscriptions db = [] → reachable db
  | reachable_step ev db : reachable db → reachable (run_event ev db).

(** [CONSTRAINT uq_xray_uuid UNIQUE (xray_uuid)] as a property of a state. *)
Definition uq_xray_uuid (db : DB) : Prop :=
  NoDup (xray_uuid <$> subscriptions db).

(** ** Expiry Sweeper *)

(** Modelled from the spec: the Expiry Sweeper of section 4.4; the
    repository holds the [expired] status, the [expire_date] column and its
    index, and no code that runs the sweep. One conditional update moves the
    [active] subscriptions whose expiry has passed to [expired] (the
    [subscriptions_updated_at] trigger of [init.sql] stamps the rows it
    touches), and one targeted trigger is queued per moved row, for its
    node. *)
Definition expiry_due (now : timestamptz) (s : subscription) : Prop :=
  status s = active ∧ expire_date s < now.

Global Instance expiry_due_dec now s : Decision (expiry_due now s).
Proof. unfold expiry_due. apply _. Defined.

Definition set_status (now : timestamptz) (st : sub_status) (s : subscription)
    : subscription :=
  {| sub_id := sub_id s; sub_user_id := sub_user_id s;
     sub_server_id := sub_server_id s; sub_tariff_id := sub_tariff_id s;
     xray_uuid := xray_uuid s; email := email s; status := st;
     expire_date := expire_date s; sub_created_at := sub_created_at s;
     sub_updated_at := now |}.

(** Modelled from the spec: what the sweeper's conditional update does to
    one row. *)
Definition sweep_row (now : timestamptz) (s : subscription) : subscription :=
  if decide (expiry_due now s) then set_status now expired s else s.

(** Modelled from the spec: one run of the sweeper, giving the nodes to
    trigger the Reconciler for and the store it leaves. *)
Definition expirySweep (now : timestamptz) (db : DB) : list uuid * DB :=
  (sub_server_id <$> filter (expiry_due now) (subscriptions db),
   with_subscriptions (sweep_row now <$> subscriptions db) db).

(** ** Node Client *)

(** Modelled from the spec: the Node Client of section 4.1 over the node
    management RPC of section 6 ([AddUser -> ok | alreadyExists],
    [RemoveUser -> ok | notFound], [ListUsers]); the repository holds the
    operator notes on the node's gRPC API and no client code. A node's
    state is the credentials it has loaded, by credential id. An operation
    is tried up to three times: a timeout is retried, a rejected secret is
    not; what happens to each try is read from [net], and a call that never
    reaches the node leaves the node as it is. *)
Record credential := { tier : Z; label : string }.

Abbreviation node := (gmap string credential).

Inductive add_response := AddOk | AlreadyExists.
Inductive remove_response := RemoveOk | NotFound.

(** Modelled from the spec: the node's side of the RPC, section 6. *)
Definition AddUser (id : uuid) (t : Z) (l : string) (n : node)
    : add_response * node :=
  match n !! id with
  | Some _ => (AlreadyExists, n)
  | None => (AddOk, <[id := {| tier := t; label := l |}]> n)
  end.

(** Modelled from the spec: the node's side of the RPC, section 6. *)
Definition RemoveUser (id : uuid) (n : node) : remove_response * node :=
  match n !! id with
  | Some _ => (RemoveOk, delete id n)
  | None => (NotFound, n)
  end.

Definition ListUsers (n : node) : gset string := dom n.

Inductive attempt := Reached | TimedOut | SecretRejected.

Inductive client_error := Unreachable | AuthFailed.

Inductive client_result := Succeeded | Failed (why : client_error).

Definition max_attempts : nat := 3.

(** Modelled from the spec: the retry policy of section 4.1. [None] when a
    try reaches the node within the budget of tries. *)
Fixpoint transport (budget : nat) (net : list attempt) : option client_error :=
  match budget, net with
  | S _, Reached :: _ => None
  | S _, SecretRejected :: _ => Some AuthFailed
  | S budget', TimedOut :: net' => transport budget' net'
  | _, _ => Some Unreachable
  end.

(** Modelled from the spec: [addCredential] of section 4.1; "already
    exists" is success. *)
Definition addCredential (net : list attempt) (id : uuid) (t : Z) (l : string)
    (n : node) : client_result * node :=
  match transport max_attempts net with
  | Some why => (Failed why, n)
  | None =>
      match AddUser id t l n with
      | (AddOk, n') => (Succeeded, n')
      | (AlreadyExists, n') => (Succeeded, n')
      end
  end.

(** Modelled from the spec: [removeCredential] of section 4.1; "not
    found" is success. *)
Definition removeCredential (net : list attempt) (id : uuid) (n : node)
    : client_result * node :=
  match transport max_attempts net with
  | Some why => (Failed why, n)
  | None =>
      match RemoveUser id n with
      | (RemoveOk, n') => (Succeeded, n')
      | (NotFound, n') => (Succeeded, n')
      end
  end.

(** ** Variations of the servers table

    Used to state that a query does not read a column: its answer is the
    same on every variation of that column. *)

Definition with_servers (srvs : list server) (db : DB) : DB :=
  {| tariffs := tariffs db; servers := srvs; users := users db;
     subscriptions := subscriptions db |}.

Definition set_is_enabled (f : server → bool) (s : server) : server :=
  {| server_id := server_id s; slug := slug s; ip_address := ip_address s;
     domain := domain s; api_secret := api_secret s; api_port := api_port s;
     grpc_port := grpc_port s; public_key := public_key s;
     short_ids := short_ids s; max_users := max_users s; is_enabled := f s;
     server_created_at := server_created_at s;
     server_updated_at := server_updated_at s |}.

Definition set_max_users (f : server → Z) (s : server) : server :=
  {| server_id := server_id s; slug := slug s; ip_address := ip_address s;
     domain := domain s; api_secret := api_secret s; api_port := api_port s;
     grpc_port := grpc_port s; public_key := public_key s;
     short_ids := short_ids s; max_users := f s; is_enabled := is_enabled s;
     server_created_at := server_created_at s;
     server_updated_at := server_updated_at s |}.

(** ** Stores the properties below are evaluated on *)

Definition a_server (sid : uuid) (limit : Z) (enabled : bool) : server :=
  {| server_id := sid; slug := sid; ip_address := "203.0.113.7";
     domain := "vpn.example.com"; api_secret := "secret"; api_port := 8080;
     grpc_port := None; public_key := "pbk"; short_ids := [];
     max_users := limit; is_enabled := enabled;
     server_created_at := 0; server_updated_at := 0 |}.

Definition a_user (uid : uuid) (tg : Z) (b : option numeric) : user :=
  {| user_id := uid; tg_id := tg; username := Some "ann"; full_name := None;
     language := Some "en"; balance := b;
     user_created_at := 0; user_updated_at := 0 |}.

Definition a_subscription (i uid sid xid : uuid) (st : sub_status) : subscription :=
  {| sub_id := i; sub_user_id := uid; sub_server_id := sid; sub_tariff_id := 1;
     xray_uuid := xid; email := "user_1_" +:+ String.substring 0 8 xid;
     status := st; expire_date := 5000; sub_created_at := 0; sub_updated_at := 0 |}.

Definition an_env : env :=
  {| env_now := 1000;
     gen_random_uuid := "0b5e7c1a-9d1f-4c3e-8a77-3f2b6c9d0e11";
     randomUUID := "7c9e6679-7425-40de-944b-e07fc1f90ae7";
     env_tie := λ _, 0;
     env_reply := λ _, None |}.

Definition node_a : server := a_server "node-a" 1 false.
Definition node_b : server := a_server "node-b" 100 true.

(** A disabled node with a free slot next to an enabled node that carries
    one active subscription. *)
Definition store_disabled : DB :=
  {| tariffs := seed_tariffs;
     servers := [node_a; node_b];
     users := [a_user "user-1" 42 (Some 10000)];
     subscriptions := [a_subscription "sub-1" "user-1" "node-b" "xid-1" active] |}.

Definition node_1 : server := a_server "node-1" 3000 true.
Definition node_2 : server := a_server "node-2" 100 true.

(** Two enabled nodes whose loads round to the same tenth of a percent:
    one of 3000 on [node-1], none of 100 on [node-2]. *)
Definition store_tie : DB :=
  {| tariffs := seed_tariffs;
     servers := [node_1; node_2];
     users := [a_user "user-1" 42 (Some 10000)];
     subscriptions := [a_subscription "sub-1" "user-1" "node-1" "xid-1" active] |}.

(** One node, at its limit, and a user who can pay. *)
Definition store_full : DB :=
  {| tariffs := seed_tariffs;
     servers := [a_server "node-a" 1 true];
     users := [a_user "user-1" 42 (Some 10000); a_user "user-2" 43 (Some 10000)];
     subscriptions := [a_subscription "sub-1" "user-1" "node-a" "xid-1" active] |}.

(** The text of a UUID as the store prints it: 8-4-4-4-12 digits of base
    sixteen, in lower case. *)
Definition is_hex (c : Ascii.ascii) : bool :=
  let n := Ascii.nat_of_ascii c in
  ((48 <=? n) && (n <=? 57) || (97 <=? n) && (n <=? 102))%nat.

Fixpoint uuid_shape (groups : list nat) (s : list Ascii.ascii) : bool :=
  match groups with
  | [] => false
  | [g] => bool_decide (length s = g) && forallb is_hex s
  | g :: gs =>
      forallb is_hex (take g s) && bool_decide (length (take g s) = g) &&
      match drop g s with
      | c :: rest => bool_decide (Ascii.nat_of_ascii c = 45%nat) && uuid_shape gs rest
      | [] => false
      end
  end.

Definition is_uuid (s : string) : bool :=
  uuid_shape [8; 4; 4; 4; 12]%nat (String.list_ascii_of_string s).

Definition node_c : server := a_server "8d3c1f0e-5a27-4b6d-9e41-7c2a9f0b6d13" 1 true.
Definition node_d : server := a_server "e2a4b6c8-0f13-4d57-8b9a-1c3e5f7a9b02" 100 true.
Definition ann : user := a_user "1b9d6bcd-bbfd-4b2d-9b5d-ab8dfbbd4bed" 42 (Some 10000).
Definition bob : user := a_user "6ec0bd7f-11c0-43da-975e-2a8ad9ebae0b" 43 (Some 10000).

(** Telegram rejects the reply of success and accepts the others. *)
Definition env_success_rejected : env :=
  {| env_now := 1000;
     gen_random_uuid := "0b5e7c1a-9d1f-4c3e-8a77-3f2b6c9d0e11";
     randomUUID := "7c9e6679-7425-40de-944b-e07fc1f90ae7";
     env_tie := λ _, 0;
     env_reply := λ r, match r with
                       | SuccessReply _ => Some (Error "429: Too Many Requests")
                       | _ => None
                       end |}.

(** Two users who can pay and a node with room. *)
Definition store_open : DB :=
  {| tariffs := seed_tariffs; servers := [node_d]; users := [ann; bob];
     subscriptions := [] |}.

(** A node of one place, free, and two users who can pay. *)
Definition store_last_place : DB :=
  {| tariffs := seed_tariffs; servers := [node_c]; users := [ann; bob];
     subscriptions := [] |}.


Definition another_env : env :=
  {| env_now := 2000;
     gen_random_uuid := "5f0c2d9e-3b64-4e0a-b1c8-6a1d4e7f9b22";
     randomUUID := "c4a1f3e2-8d57-4b90-a6e1-2f9b0d3c5a68";
     env_tie := λ _, 0;
     env_reply := λ _, None |}.

(** A store before the first purchase. *)
Definition store_start : DB :=
  {| tariffs := seed_tariffs;
     servers := [node_b];
     users := [a_user "user-1" 42 (Some 10000)];
     subscriptions := [] |}.

(** Two purchases of the first plan by the same user. *)
Definition store_after_two_purchases : DB :=
  run_event (BuyAction another_env (a_user "user-1" 42 (Some 7100)) 1)
    (run_event (BuyAction an_env (a_user "user-1" 42 (Some 10000)) 1) store_start).

(** ** [db.getUser]: [SELECT * FROM users WHERE tg_id = $1], [res.rows[0]] *)

Definition getUser (tgId : Z) (db : DB) : option user :=
  head (filter (λ u, tg_id u = tgId) (users db)).

(** ** [db.getActiveSub]

    [SELECT s.*, t.name as plan_name, srv.domain, srv.ip_address,
            srv.public_key, srv.short_ids
     FROM subscriptions s
     JOIN tariffs t ON s.tariff_id = t.id
     JOIN servers srv ON s.server_id = srv.id
     WHERE s.user_id = $1 AND s.status = 'active' AND s.expire_date > now()] *)

Record active_sub := {
  as_sub : subscription;
  plan_name : string;
  as_domain : string;
  as_ip_address : string;
  as_public_key : string;
  as_short_ids : list string
}.

Definition joined_row (s : subscription) (t : tariff) (srv : server) : active_sub :=
  {| as_sub := s; plan_name := tariff_name t; as_domain := domain srv;
     as_ip_address := ip_address srv; as_public_key := public_key srv;
     as_short_ids := short_ids srv |}.

Definition getActiveSub_rows (now : timestamptz) (userId : uuid) (db : DB)
    : list active_sub :=
  s ← subscriptions db;
  t ← filter (λ t, sub_tariff_id s = tariff_id t) (tariffs db);
  srv ← filter (λ srv, sub_server_id s = server_id srv) (servers db);
  if decide (sub_user_id s = userId ∧ status s = active ∧ now < expire_date s)
  then [joined_row s t srv] else [].

(** The query has no ORDER BY: [res.rows[0]] is any of the rows. *)
Definition getActiveSub_result (now : timestamptz) (userId : uuid) (db : DB)
    (res : option active_sub) : Prop :=
  match res with
  | Some r => r ∈ getActiveSub_rows now userId db
  | None => getActiveSub_rows now userId db = []
  end.

Definition getActiveSub (now : timestamptz) (userId : uuid) (db : DB)
    : option active_sub :=
  head (getActiveSub_rows now userId db).

(** ** The profile menu [bot.action("menu_profile", ...)] *)





(** ** The plan menu [bot.action("menu_tariffs", ...)] *)

(** The text the driver hands a NUMERIC(10, 2) value over as. *)
Definition two_digits (n : Z) : string :=
  (if decide (n < 10) then "0" else "") +:+ pretty n.

Definition numeric_text (x : numeric) : string :=
  (if decide (x < 0) then "-" else "")
  +:+ pretty (Z.abs x `div` 100) +:+ "." +:+ two_digits (Z.abs x `mod` 100).

Record button := { btn_text : string; btn_data : string }.

Definition tariff_button (t : tariff) : button :=
  {| btn_text := tariff_name t +:+ " - " +:+ numeric_text (price t)
                 +:+ " RUB (" +:+ pretty (speed_limit_mbps t) +:+ " Mbps)";
     btn_data := "buy_" +:+ pretty (tariff_id t) |}.

Definition back_button : button :=
  {| btn_text := "🔙 Back"; btn_data := "start" |}.

(** One row of one button per plan, then the row of the back button. *)
Definition menu_tariffs (db : DB) : list button * DB :=
  ((tariff_button <$> getTariffs db) ++ [back_button], db).

(** ** Routing of callback data

    [bot.action] with a string fires on that very string, with a pattern on
    the strings the pattern matches; [bot.start] fires on the command
    [/start] of a text message and on no callback data. *)

Definition is_digit (c : Ascii.ascii) : bool :=
  bool_decide (48 ≤ Z.of_N (Ascii.N_of_ascii c) ≤ 57).

Fixpoint all_digits (s : string) : bool :=
  match s with
  | EmptyString => true
  | String c s' => is_digit c && all_digits s'
  end.

Fixpoint strip_prefix (p s : string) : option string :=
  match p, s with
  | EmptyString, _ => Some s
  | String a p', String b s' =>
      if decide (a = b) then strip_prefix p' s' else None
  | String _ _, EmptyString => None
  end.

(** [/^buy_(\d+)$/.exec(data)]: the captured digits, [ctx.match[1]]. *)
Definition match_buy (data : string) : option string :=
  match strip_prefix "buy_" data with
  | Some digits =>
      if all_digits digits && negb (bool_decide (digits = ""))
      then Some digits else None
  | None => None
  end.

(** The number a string of digits denotes; [t.id == tariffId] converts the
    captured digits so (tariff ids are SMALLINT, far below 2^53, where the
    conversion to a double is exact, and a larger value stays larger). *)
Fixpoint decimal_value (acc : Z) (digits : string) : Z :=
  match digits with
  | EmptyString => acc
  | String c s' =>
      decimal_value (acc * 10 + (Z.of_N (Ascii.N_of_ascii c) - 48)) s'
  end.

Inductive action :=
  | MenuProfile
  | MenuTariffs
  | BuyPlan (tariffId : Z)
  | MenuDeposit.

Definition route (data : string) : option action :=
  if decide (data = "menu_profile") then Some MenuProfile
  else if decide (data = "menu_tariffs") then Some MenuTariffs
  else match match_buy data with
       | Some digits => Some (BuyPlan (decimal_value 0 digits))
       | None =>
           if decide (data = "menu_deposit") then Some MenuDeposit else None
       end.

(** ** Runs of events *)

Definition run_events (evs : list event) (db : DB) : DB :=
  foldl (λ d ev, run_event ev d) db evs.

(** The events a chat can cause: every update passes the middleware, and
    [createSubscription] is reached through the purchase handler only. *)
Definition chat_event (ev : event) : Prop :=
  match ev with
  | CreateSubscription _ _ _ _ _ => False
  | _ => True
  end.

(** The constraints of [init.sql] on a state of the store. *)
Record schema_ok (db : DB) : Prop := {
  tariffs_pkey : NoDup (tariff_id <$> tariffs db);
  servers_pkey : NoDup (server_id <$> servers db);
  users_pkey : NoDup (user_id <$> users db);
  users_tg_id_key : NoDup (tg_id <$> users db);
  subscriptions_pkey : NoDup (sub_id <$> subscriptions db);
  subscriptions_uq_xray_uuid : NoDup (xray_uuid <$> subscriptions db);
  subscriptions_user_id_fkey :
    ∀ s, s ∈ subscriptions db → sub_user_id s ∈ user_id <$> users db;
  subscriptions_server_id_fkey :
    ∀ s, s ∈ subscriptions db → sub_server_id s ∈ server_id <$> servers db;
  subscriptions_tariff_id_fkey :
    ∀ s, s ∈ subscriptions db → sub_tariff_id s ∈ tariff_id <$> tariffs db
}.

(** [max_users] as a ceiling on a state of the store. *)
Definition capacity_ok (db : DB) : Prop :=
  ∀ s, s ∈ servers db →
       count_active (server_id s) (subscriptions db) ≤ max_users s.

(** What an event may do to a row of [users]. *)
Inductive user_step (db : DB) : user → user → Prop :=
  | user_same u : user_step db u u
  | user_renamed now name u : user_step db u (set_username now name u)
  | user_debited now t b u :
      t ∈ tariffs db → balance u = Some b → price t ≤ b →
      user_step db u (set_balance now (b - price t) u).

(** [b'] is no more than [b]; NULL stays NULL. *)
Definition balance_le (b' b : option numeric) : Prop :=
  match b', b with
  | Some x', Some x => x' ≤ x
  | None, None => True
  | _, _ => False
  end.

(** ** The registration bot and its schema

    The second bot of the repository, with the schema it reads: users carry
    the credential [uuid] themselves and have at most one subscription
    (UNIQUE (user_id)). The bot registers users through the control plane,
    an HTTP service that is not among these sources; [post] stands for
    [axios.post(CONTROL_PLANE_URL + "/api/v1/users", { tg_id })], giving the
    [id] and [uuid] of the response or throwing. *)

Module Agent.

Inductive status := active | expired | cancelled.

Record user := {
  id : string;
  tg_id : Z;
  uuid : string;
  is_active : bool;
  created_at : Z;
  updated_at : Z
}.

Record subscription := {
  sub_id : string;
  user_id : string;
  plan_id : string;
  expire_date : Z;
  sub_status : status;
  sub_created_at : Z;
  sub_updated_at : Z
}.

Record DB := {
  users : list user;
  subscriptions : list subscription
}.


Record status_row := {
  row_uuid : string;
  row_expire_date : option Z;
  row_status : option status
}.

(** [SELECT u.uuid, s.expire_date, s.status FROM users u
     LEFT JOIN subscriptions s ON s.user_id = u.id WHERE u.tg_id = $1] *)
Definition getUserStatus_rows (tgId : Z) (db : DB) : list status_row :=
  u ← filter (λ u, tg_id u = tgId) (users db);
  match filter (λ s, user_id s = id u) (subscriptions db) with
  | [] => [ {| row_uuid := uuid u; row_expire_date := None; row_status := None |} ]
  | ss =>
      (λ s, {| row_uuid := uuid u; row_expire_date := Some (expire_date s);
               row_status := Some (sub_status s) |}) <$> ss
  end.

(** [rows[0] || null] *)
Definition getUserStatus (tgId : Z) (db : DB) : option status_row :=
  head (getUserStatus_rows tgId db).





End Agent.

Definition an_agent_store : Agent.DB :=
  {| Agent.users :=
       [ {| Agent.id := "user-1"; Agent.tg_id := 42;
            Agent.uuid := "7c9e6679-7425-40de-944b-e07fc1f90ae7";
            Agent.is_active := true; Agent.created_at := 0;
            Agent.updated_at := 0 |};
         {| Agent.id := "user-2"; Agent.tg_id := 43;
            Agent.uuid := "c4a1f3e2-8d57-4b90-a6e1-2f9b0d3c5a68";
            Agent.is_active := true; Agent.created_at := 0;
            Agent.updated_at := 0 |} ];
     Agent.subscriptions :=
       [ {| Agent.sub_id := "sub-1"; Agent.user_id := "user-2";
            Agent.plan_id := "pro"; Agent.expire_date := 5000;
            Agent.sub_status := Agent.active; Agent.sub_created_at := 0;
            Agent.sub_updated_at := 0 |} ] |}.

(** ** Totals over the view *)

Definition sum_Z (l : list Z) : Z := foldr Z.add 0 l.

(** The sum of the column [current_users] of [view_server_load]. *)
Definition total_current_users (db : DB) : Z :=
  sum_Z (current_users <$> view_server_load db).

Definition active_subscriptions (db : DB) : list subscription :=
  filter (λ s, status s = active) (subscriptions db).

(** * Properties *)

(** ** Facts on ORDER BY *)

Section order_by_facts.
Context {A : Type} (key : A → Z).

Global Instance key_le_trans : Transitive (key_le key).
Proof. unfold key_le. intros a b c. lia. Qed.

Global Instance key_le_total : Total (key_le key).
Proof. unfold key_le. intros a b. lia. Qed.

Lemma order_by_ordered rows : ordered_by key rows (order_by key rows).
Proof.
  split.
  - apply merge_sort_Permutation.
  - apply (StronglySorted_merge_sort (key_le key)).
Qed.

Lemma first_ordered_by_order_by rows :
  first_ordered_by key rows (head (order_by key rows)).
Proof. exists (order_by key rows). split; [apply order_by_ordered | done]. Qed.

(** The first row of an ordered answer is a row of least key. *)
Lemma first_ordered_by_Some rows r :
  first_ordered_by key rows (Some r) →
  r ∈ rows ∧ ∀ r', r' ∈ rows → key r ≤ key r'.
Proof.
  intros (out & [Hperm Hsorted] & Hhead).
  destruct out as [|x out']; simplify_eq/=.
  split.
  - rewrite <- Hperm. left.
  - intros r' Hr'. rewrite <- Hperm in Hr'.
    apply StronglySorted_inv in Hsorted as [_ Hall].
    apply elem_of_cons in Hr' as [->|Hr']; [done|].
    rewrite Forall_forall in Hall. by apply Hall.
Qed.

Lemma first_ordered_by_None rows :
  first_ordered_by key rows None ↔ rows = [].
Proof.
  split.
  - intros (out & [Hperm _] & Hhead).
    destruct out; [|done]. by apply Permutation_nil_l in Hperm.
  - intros ->. exists []. repeat split; [done|constructor].
Qed.

(** Every row of least key is the first row of some ordered answer. *)
Lemma first_ordered_by_least rows r :
  r ∈ rows → (∀ r', r' ∈ rows → key r ≤ key r') →
  first_ordered_by key rows (Some r).
Proof.
  intros Hin Hmin. apply list_elem_of_split in Hin as (l1 & l2 & ->).
  exists (r :: order_by key (l1 ++ l2)). split; [split|done].
  - unfold order_by. rewrite merge_sort_Permutation.
    by rewrite Permutation_middle.
  - constructor; [apply (StronglySorted_merge_sort (key_le key))|].
    apply Forall_forall. intros x Hx.
    unfold order_by in Hx. rewrite merge_sort_Permutation in Hx.
    apply Hmin. rewrite elem_of_app in Hx. rewrite elem_of_app, elem_of_cons.
    tauto.
Qed.

Lemma head_order_by_None rows : head (order_by key rows) = None ↔ rows = [].
Proof.
  split.
  - intros H. apply first_ordered_by_None. rewrite <- H.
    apply first_ordered_by_order_by.
  - intros ->. done.
Qed.
End order_by_facts.

(** ** Server selection *)

Lemma elem_of_view_server_load db r :
  r ∈ view_server_load db ↔
  ∃ s, s ∈ servers db ∧ r = view_row (subscriptions db) s.
Proof.
  unfold view_server_load. rewrite list_elem_of_fmap. split; intros (s & ? & ?); eauto.
Qed.

Lemma elem_of_free_rows db r :
  r ∈ free_rows db ↔ r ∈ view_server_load db ∧ current_users r < vl_max_users r.
Proof.
  unfold free_rows, slots_available. rewrite list_elem_of_filter.
  split; intros [? ?]; split; auto; lia.
Qed.

Lemma count_active_nonneg sid subs : 0 ≤ count_active sid subs.
Proof. unfold count_active. lia. Qed.

(** No row is free exactly when every server is at or above its limit. *)
Lemma free_rows_nil db :
  free_rows db = [] ↔
  ∀ s, s ∈ servers db → max_users s ≤ count_active (server_id s) (subscriptions db).
Proof.
  split.
  - intros Hnil s Hs.
    destruct (decide (max_users s ≤ count_active (server_id s) (subscriptions db)))
      as [|Hlt]; [done|].
    assert (view_row (subscriptions db) s ∈ free_rows db) as Hin.
    { apply elem_of_free_rows. split.
      - apply elem_of_view_server_load. eauto.
      - simpl. lia. }
    rewrite Hnil in Hin. by apply not_elem_of_nil in Hin.
  - intros Hfull. apply elem_of_nil_inv. intros r Hr.
    apply elem_of_free_rows in Hr as [Hr Hlt].
    apply elem_of_view_server_load in Hr as (s & Hs & ->).
    specialize (Hfull s Hs). simpl in Hlt. lia.
Qed.

Lemma findBestServer_result_Some db r :
  findBestServer_result db (Some r) →
  r ∈ view_server_load db ∧ current_users r < vl_max_users r ∧
  ∀ r', r' ∈ view_server_load db → current_users r' < vl_max_users r' →
        load_percentage r ≤ load_percentage r'.
Proof.
  intros H. apply first_ordered_by_Some in H as [Hin Hmin].
  apply elem_of_free_rows in Hin as [Hin Hlt].
  repeat split; [done..|].
  intros r' Hr' Hlt'. apply Hmin. by apply elem_of_free_rows.
Qed.

Lemma findBestServer_row_result db :
  findBestServer_result db (findBestServer_row db).
Proof. apply first_ordered_by_order_by. Qed.

Lemma findBestServer_Some db sid :
  findBestServer db = Some sid →
  ∃ s, s ∈ servers db ∧ server_id s = sid ∧
       count_active (server_id s) (subscriptions db) < max_users s.
Proof.
  unfold findBestServer. intros H.
  destruct (findBestServer_row db) as [r|] eqn:Hrow; simplify_eq/=.
  pose proof (findBestServer_row_result db) as Hres. rewrite Hrow in Hres.
  apply findBestServer_result_Some in Hres as (Hin & Hlt & _).
  apply elem_of_view_server_load in Hin as (s & Hs & ->).
  exists s. by repeat split.
Qed.

Lemma findBestServer_None db :
  findBestServer db = None ↔
  ∀ s, s ∈ servers db → max_users s ≤ count_active (server_id s) (subscriptions db).
Proof.
  rewrite <- free_rows_nil. unfold findBestServer, findBestServer_row.
  rewrite fmap_None. apply head_order_by_None.
Qed.

(** ** Selection against a store that orders ties *)

Lemma first_by_None tie rows : first_by tie rows = None ↔ rows = [].
Proof.
  destruct rows as [|r rs]; [done|]. simpl.
  destruct (first_by tie rs); [case_decide|]; done.
Qed.

Lemma first_by_Some tie rows r :
  first_by tie rows = Some r →
  r ∈ rows ∧ ∀ r', r' ∈ rows → load_percentage r ≤ load_percentage r'.
Proof.
  revert r. induction rows as [|x rs IH]; [done|]. intros r. simpl.
  destruct (first_by tie rs) as [m|] eqn:Hm.
  - destruct (IH m eq_refl) as [Hin Hmin].
    destruct (decide (precedes tie x m)) as [Hp|Hp]; intros [= <-].
    + split; [left|]. intros r' [->|Hr']%elem_of_cons; [done|].
      specialize (Hmin r' Hr'). unfold precedes in Hp. lia.
    + split; [by right|]. intros r' [->|Hr']%elem_of_cons; [|by apply Hmin].
      unfold precedes in Hp. lia.
  - intros [= <-]. apply first_by_None in Hm as ->.
    split; [left|]. by intros r' [->|?%not_elem_of_nil]%elem_of_cons.
Qed.

(** Whatever the order of ties, the row chosen is one the query admits. *)
Lemma first_by_result tie db :
  findBestServer_result db (first_by tie (free_rows db)).
Proof.
  unfold findBestServer_result.
  destruct (first_by tie (free_rows db)) as [r|] eqn:Hr.
  - apply first_by_Some in Hr as [Hin Hmin]. by apply first_ordered_by_least.
  - apply first_by_None in Hr. by apply first_ordered_by_None.
Qed.

(** The rows [tie] puts strictly first among those of least load. *)
Lemma first_by_strict tie rows r :
  r ∈ rows →
  (∀ r', r' ∈ rows → r' ≠ r →
         load_percentage r < load_percentage r' ∨
         (load_percentage r = load_percentage r' ∧ tie r < tie r')) →
  first_by tie rows = Some r.
Proof.
  induction rows as [|x rs IH]; [by intros ?%not_elem_of_nil|].
  intros Hin Hmin. simpl.
  destruct (first_by tie rs) as [m|] eqn:Hm.
  - pose proof (first_by_Some _ _ _ Hm) as [Hm' _].
    assert (r ∈ rs → m = r) as Hrs.
    { intros Hr. apply (inj Some), IH; [done|].
      intros r' Hr' Hne'. apply Hmin; [by right|done]. }
    destruct (decide (precedes tie x m)) as [Hp|Hp].
    + destruct (decide (x = r)) as [->|Hne]; [done|].
      apply elem_of_cons in Hin as [->|Hin]; [done|].
      rewrite (Hrs Hin) in Hp.
      destruct (Hmin x) as [?|[? ?]]; [left|done|..];
        unfold precedes in Hp; lia.
    + destruct (decide (m = r)) as [->|Hne]; [done|].
      apply elem_of_cons in Hin as [->|Hin]; [|by destruct Hne; apply Hrs].
      destruct (Hmin m) as [?|[? ?]]; [by right|done|..];
        exfalso; apply Hp; unfold precedes; lia.
  - apply first_by_None in Hm as ->.
    by apply elem_of_cons in Hin as [->|?%not_elem_of_nil].
Qed.

(** Every row the query admits is the row chosen under some order of
    ties. *)
Lemma first_by_any db r :
  findBestServer_result db (Some r) →
  first_by (λ x, if decide (x = r) then 0 else 1) (free_rows db) = Some r.
Proof.
  intros [Hin Hmin]%first_ordered_by_Some.
  apply first_by_strict; [done|]. intros r' Hr' Hne.
  specialize (Hmin r' Hr').
  rewrite decide_True by done. rewrite decide_False by done. lia.
Qed.

Lemma findBestServer_tie_Some tie db sid :
  findBestServer_tie tie db = Some sid →
  ∃ s, s ∈ servers db ∧ server_id s = sid ∧
       count_active (server_id s) (subscriptions db) < max_users s.
Proof.
  unfold findBestServer_tie. intros H.
  destruct (first_by tie (free_rows db)) as [r|] eqn:Hrow; simplify_eq/=.
  pose proof (first_by_result tie db) as Hres. rewrite Hrow in Hres.
  apply findBestServer_result_Some in Hres as (Hin & Hlt & _).
  apply elem_of_view_server_load in Hin as (s & Hs & ->).
  exists s. by repeat split.
Qed.


(** C1. Whatever row the store answers [findBestServer] with, it is the row
    of a server whose count of active subscriptions is strictly below its
    [max_users]; so is the server whose id [findBestServer] returns. *)
Theorem findBestServer_below_capacity db :
  (∀ r, findBestServer_result db (Some r) →
        ∃ s, s ∈ servers db ∧ vl_id r = server_id s ∧
             vl_max_users r = max_users s ∧
             current_users r = count_active (server_id s) (subscriptions db) ∧
             count_active (server_id s) (subscriptions db) < max_users s) ∧
  (∀ sid, findBestServer db = Some sid →
          ∃ s, s ∈ servers db ∧ server_id s = sid ∧
               count_active (server_id s) (subscriptions db) < max_users s).
Proof.
  split.
  - intros r Hres.
    apply findBestServer_result_Some in Hres as (Hin & Hlt & _).
    apply elem_of_view_server_load in Hin as (s & Hs & ->).
    exists s. by repeat split.
  - apply findBestServer_Some.
Qed.

Lemma findBestServer_below_capacity_witness :
  ∃ s, s ∈ servers store_disabled ∧ server_id s = "node-a" ∧
       count_active (server_id s) (subscriptions store_disabled) < max_users s.
Proof.
  apply (proj2 (findBestServer_below_capacity store_disabled) "node-a").
  by vm_compute.
Defined.

Lemma load_percentage_nearest_tenth r :
  0 < vl_max_users r →
  2000 * current_users r - vl_max_users r
    < 2 * vl_max_users r * load_percentage r
    ≤ 2000 * current_users r + vl_max_users r.
Proof.
  intros Hm. unfold load_percentage.
  pose proof (Z.div_mod (2000 * current_users r + vl_max_users r)
                (2 * vl_max_users r)) as Hdm.
  pose proof (Z.mod_pos_bound (2000 * current_users r + vl_max_users r)
                (2 * vl_max_users r)) as Hb.
  lia.
Qed.

Lemma view_server_load_is_enabled f db :
  view_server_load (with_servers (set_is_enabled f <$> servers db) db)
  = view_server_load db.
Proof.
  unfold view_server_load. simpl. rewrite <- list_fmap_compose.
  by apply list_fmap_ext.
Qed.

(** C2, as the code has it. Selection reads every server row, whatever its
    [is_enabled] flag; it leaves out the rows whose count of active
    subscriptions has reached [max_users]; the row it answers with has the
    least [load_percentage] (the ratio as a percentage, rounded to one
    decimal) of those left, and it answers with no row exactly when none is
    left. Nothing orders rows of equal [load_percentage]. *)
Theorem findBestServer_least_load_percentage db :
  (∀ res, findBestServer_result db res →
     match res with
     | Some r =>
         ∃ s, s ∈ servers db ∧ r = view_row (subscriptions db) s ∧
              count_active (server_id s) (subscriptions db) < max_users s ∧
              ∀ s', s' ∈ servers db →
                    count_active (server_id s') (subscriptions db) < max_users s' →
                    load_percentage r ≤ load_percentage (view_row (subscriptions db) s')
     | None =>
         ∀ s, s ∈ servers db →
              max_users s ≤ count_active (server_id s) (subscriptions db)
     end) ∧
  (∀ f res,
     findBestServer_result (with_servers (set_is_enabled f <$> servers db) db) res
     ↔ findBestServer_result db res) ∧
  findBestServer_result db (findBestServer_row db).
Proof.
  split; [|split].
  - intros [r|] Hres.
    + apply findBestServer_result_Some in Hres as (Hin & Hlt & Hmin).
      apply elem_of_view_server_load in Hin as (s & Hs & ->).
      exists s. repeat split; [done..|].
      intros s' Hs' Hlt'. apply Hmin; [|done].
      apply elem_of_view_server_load. eauto.
    + apply first_ordered_by_None in Hres. by apply free_rows_nil.
  - intros f res. unfold findBestServer_result, free_rows.
    by rewrite view_server_load_is_enabled.
  - apply findBestServer_row_result.
Qed.

Lemma findBestServer_least_load_percentage_witness :
  match findBestServer_row store_tie with
  | Some r =>
      ∃ s, s ∈ servers store_tie ∧ r = view_row (subscriptions store_tie) s ∧
           count_active (server_id s) (subscriptions store_tie) < max_users s ∧
           ∀ s', s' ∈ servers store_tie →
                 count_active (server_id s') (subscriptions store_tie) < max_users s' →
                 load_percentage r
                 ≤ load_percentage (view_row (subscriptions store_tie) s')
  | None =>
      ∀ s, s ∈ servers store_tie →
           max_users s ≤ count_active (server_id s) (subscriptions store_tie)
  end.
Proof.
  destruct (findBestServer_least_load_percentage store_tie) as (Hmin & _ & Hrow).
  apply (Hmin (findBestServer_row store_tie) Hrow).
Defined.

(** C2, where the claim fails. On [store_disabled] the node returned is the
    disabled one, whatever order the store breaks ties in; on [store_tie]
    the store may answer with either node, and one of the two answers has
    the strictly higher ratio of active subscriptions to [max_users]. *)
Lemma findBestServer_disabled_node_and_ties :
  (servers store_disabled = [node_a; node_b] ∧
   is_enabled node_a = false ∧ is_enabled node_b = true ∧
   findBestServer store_disabled = Some (server_id node_a) ∧
   ∀ res, findBestServer_result store_disabled res →
          vl_id <$> res = Some (server_id node_a)) ∧
  (findBestServer_result store_tie (Some (view_row (subscriptions store_tie) node_1)) ∧
   findBestServer_result store_tie (Some (view_row (subscriptions store_tie) node_2)) ∧
   server_id node_1 ≠ server_id node_2 ∧
   count_active "node-2" (subscriptions store_tie) * max_users node_1
   < count_active "node-1" (subscriptions store_tie) * max_users node_2).
Proof.
  split.
  - split; [done|]. split; [done|]. split; [done|].
    split; [by vm_compute|].
    intros res Hres.
    assert (free_rows store_disabled
            = [view_row (subscriptions store_disabled) node_a;
               view_row (subscriptions store_disabled) node_b]) as Hrows
      by (by vm_compute).
    destruct res as [r|].
    + apply first_ordered_by_Some in Hres as [Hin Hmin].
      rewrite Hrows in Hin, Hmin.
      apply elem_of_cons in Hin as [->|Hin]; [done|].
      apply list_elem_of_singleton in Hin as ->.
      specialize (Hmin (view_row (subscriptions store_disabled) node_a)).
      exfalso. revert Hmin. vm_compute. intros Hmin.
      apply Hmin; [left|done].
    + apply first_ordered_by_None in Hres. by rewrite Hrows in Hres.
  - assert (free_rows store_tie
            = [view_row (subscriptions store_tie) node_1;
               view_row (subscriptions store_tie) node_2]) as Hrows
      by (by vm_compute).
    split; [|split; [|split; [done|by vm_compute]]].
    + exists [view_row (subscriptions store_tie) node_1;
              view_row (subscriptions store_tie) node_2].
      rewrite Hrows. repeat split; [done|].
      repeat constructor. by vm_compute.
    + exists [view_row (subscriptions store_tie) node_2;
              view_row (subscriptions store_tie) node_1].
      rewrite Hrows. repeat split; [apply Permutation_swap|].
      repeat constructor. by vm_compute.
Qed.

(** ** Registration *)

(** Under a UNIQUE column [f], the rows around a row differ from it on [f]. *)
Lemma NoDup_fmap_around {A B} (f : A → B) (l1 l2 : list A) (x : A) :
  NoDup (f <$> (l1 ++ x :: l2)) →
  ∀ y, y ∈ l1 ++ l2 → f y ≠ f x.
Proof.
  rewrite fmap_app, fmap_cons. intros Hnd y Hy Heq.
  apply NoDup_app in Hnd as (_ & Hdisj & Hnd2).
  apply NoDup_cons in Hnd2 as [Hx2 _].
  apply elem_of_app in Hy as [Hy|Hy].
  - apply (Hdisj (f x)).
    + rewrite <- Heq. by apply list_elem_of_fmap_2.
    + left.
  - apply Hx2. rewrite <- Heq. by apply list_elem_of_fmap_2.
Qed.

Lemma filter_tg_id_nil tgId (l : list user) :
  (∀ y, y ∈ l → tg_id y ≠ tgId) → filter (λ u, tg_id u = tgId) l = [].
Proof.
  intros H. apply elem_of_nil_inv. intros y Hy.
  apply list_elem_of_filter in Hy as [Heq Hy]. by apply (H y).
Qed.

Lemma upsert_username_other now tgId name (l : list user) :
  (∀ y, y ∈ l → tg_id y ≠ tgId) → upsert_username now tgId name <$> l = l.
Proof.
  intros H. rewrite <- (list_fmap_id l) at 2. apply list_fmap_ext.
  intros i y Hy%list_elem_of_lookup_2. unfold upsert_username. by rewrite decide_False by by apply H.
Qed.

(** C9. For a [tg_id] already in the users table, [createUser] returns that
    user's row with the new username and leaves the table with the same
    rows in the same places, that one row changed in [username] and
    [updated_at] only: its [id], [balance] and [created_at] (and every other
    column) are as before, and no row is added. *)
Theorem createUser_existing_user e tgId name db u :
  NoDup (tg_id <$> users db) →
  u ∈ users db →
  tg_id u = tgId →
  let u' := set_username (env_now e) name u in
  ∃ l1 l2,
    users db = l1 ++ u :: l2 ∧
    createUser e tgId name db = (Ok u', with_users (l1 ++ u' :: l2) db) ∧
    length (l1 ++ u' :: l2) = length (users db) ∧
    user_id u' = user_id u ∧ tg_id u' = tg_id u ∧ balance u' = balance u ∧
    user_created_at u' = user_created_at u ∧ full_name u' = full_name u ∧
    language u' = language u ∧
    username u' = name ∧ user_updated_at u' = env_now e.
Proof.
  intros Hnd Hu Htg u'.
  apply list_elem_of_split in Hu as (l1 & l2 & Hsplit).
  exists l1, l2. split; [done|].
  rewrite Hsplit in Hnd.
  pose proof (NoDup_fmap_around tg_id l1 l2 u Hnd) as Hother.
  rewrite Htg in Hother.
  assert (∀ y, y ∈ l1 → tg_id y ≠ tgId) as H1
    by (intros y Hy; apply Hother, elem_of_app; by left).
  assert (∀ y, y ∈ l2 → tg_id y ≠ tgId) as H2
    by (intros y Hy; apply Hother, elem_of_app; by right).
  split.
  - unfold createUser. rewrite Hsplit.
    rewrite filter_app, filter_cons_True by done.
    rewrite (filter_tg_id_nil tgId l1 H1). simpl.
    rewrite fmap_app, fmap_cons.
    rewrite (upsert_username_other _ _ _ l1 H1).
    rewrite (upsert_username_other _ _ _ l2 H2).
    unfold upsert_username at 1. by rewrite decide_True by done.
  - rewrite Hsplit. rewrite !length_app. done.
Qed.

Lemma createUser_existing_user_witness :
  ∃ l1 l2,
    users store_full = l1 ++ a_user "user-2" 43 (Some 10000) :: l2 ∧
    createUser an_env 43 (Some "zoe") store_full
    = (Ok (set_username 1000 (Some "zoe") (a_user "user-2" 43 (Some 10000))),
       with_users
         (l1 ++ set_username 1000 (Some "zoe") (a_user "user-2" 43 (Some 10000)) :: l2)
         store_full).
Proof.
  destruct (createUser_existing_user an_env 43 (Some "zoe") store_full
              (a_user "user-2" 43 (Some 10000)))
    as (l1 & l2 & H1 & H2 & _).
  - apply (bool_decide_unpack _). by vm_compute.
  - unfold store_full. simpl. right. left.
  - reflexivity.
  - exists l1, l2. split; [exact H1|exact H2].
Defined.

(** ** The payment watcher *)

(** C10. A tick of the payment watcher runs no query and sends no message,
    and leaves the store as it is; so does any number of ticks, and no
    balance changes through them. The deposit menu, which tells the user to
    send funds with the comment [user-<tg_id>], leaves the store as it is
    too. *)
Theorem paymentWatcher_tick_changes_nothing db :
  paymentWatcher_tick db = ([], db) ∧
  (∀ n, paymentWatcher_run n db = ([], db) ∧
        balance <$> users (paymentWatcher_run n db).2 = balance <$> users db) ∧
  (∀ wallet u,
     (menu_deposit wallet u db).2 = db ∧
     deposit_comment (menu_deposit wallet u db).1 = "user-" +:+ pretty (tg_id u)).
Proof.
  split_and!; [done| |done].
  assert (∀ n, paymentWatcher_run n db = ([], db)) as Hrun.
  { induction n as [|n IH]; [done|]. simpl. by rewrite IH. }
  intros n. by rewrite Hrun.
Qed.

(** ** The debit *)

(** The update keeps every row in its place and touches the qualifying
    rows only. *)
Lemma update_debit_rows_Ok now p uid us rows ids :
  update_debit_rows now p uid us = Ok (rows, ids) →
  rows = (λ u, from_option (λ b', set_balance now b' u) u (debited p uid u)) <$> us ∧
  ids = user_id <$> filter (λ u, is_Some (debited p uid u)) us.
Proof.
  revert rows ids. induction us as [|u us IH]; intros rows ids Hupd; simpl in Hupd.
  - by simplify_eq.
  - destruct (update_debit_rows now p uid us) as [[rows0 ids0]|] eqn:Hrec; [|done].
    destruct (IH _ _ eq_refl) as [-> ->].
    destruct (debited p uid u) as [b'|] eqn:Hdeb.
    + destruct (decide (numeric_10_2 b')); [|done]. simplify_eq.
      rewrite fmap_cons, Hdeb, filter_cons_True by (by rewrite Hdeb). done.
    + simplify_eq.
      rewrite fmap_cons, Hdeb, filter_cons_False; [done|].
      rewrite Hdeb. by intros [? ?].
Qed.

Lemma debited_Some p uid u b' :
  debited p uid u = Some b' ↔
  user_id u = uid ∧ ∃ b, balance u = Some b ∧ p ≤ b ∧ b' = b - p.
Proof.
  unfold debited. split.
  - destruct (decide (user_id u = uid)); [|done].
    destruct (balance u) as [b|]; [|done].
    destruct (decide (p ≤ b)); [|done].
    intros [= <-]. split; [done|]. by exists b.
  - intros (-> & b & -> & Hle & ->).
    by rewrite !decide_True by done.
Qed.

Lemma debited_other p uid u : user_id u ≠ uid → debited p uid u = None.
Proof. intros. unfold debited. by rewrite decide_False. Qed.

(** No row qualifies: nothing is updated and no id is returned. *)
Lemma update_debit_rows_none now p uid us :
  (∀ u, u ∈ us → debited p uid u = None) →
  update_debit_rows now p uid us = Ok (us, []).
Proof.
  induction us as [|u us IH]; intros Hnone; [done|]. simpl.
  rewrite IH by (intros; apply Hnone; by right).
  by rewrite Hnone by left.
Qed.

(** Rows of other users in front of the scan pass through. *)
Lemma update_debit_rows_app_other now p uid (l r : list user) :
  (∀ y, y ∈ l → user_id y ≠ uid) →
  update_debit_rows now p uid (l ++ r)
  = match update_debit_rows now p uid r with
    | Ok i => Ok (l ++ i.1, i.2)
    | Throw e => Throw e
    end.
Proof.
  intros Hl. induction l as [|y l IHl]; simpl.
  - by destruct (update_debit_rows now p uid r) as [[??]|].
  - rewrite IHl by (intros; apply Hl; by right).
    destruct (update_debit_rows now p uid r) as [[??]|]; [|done].
    by rewrite debited_other by (apply Hl; left).
Qed.

(** Under the primary key of [users], a debit that returns an id changed
    exactly the buyer's row. *)
Lemma update_debit_rows_buyer now p uid us rows ids :
  NoDup (user_id <$> us) →
  update_debit_rows now p uid us = Ok (rows, ids) →
  ids ≠ [] →
  ∃ l1 buyer l2 b,
    us = l1 ++ buyer :: l2 ∧ user_id buyer = uid ∧
    balance buyer = Some b ∧ p ≤ b ∧ numeric_10_2 (b - p) ∧
    rows = l1 ++ set_balance now (b - p) buyer :: l2 ∧ ids = [uid].
Proof.
  intros Hnd Hupd Hids.
  destruct (update_debit_rows_Ok _ _ _ _ _ _ Hupd) as [_ Hidseq].
  destruct (filter (λ u, is_Some (debited p uid u)) us) as [|buyer rest] eqn:Hf;
    [by subst|].
  assert (buyer ∈ filter (λ u, is_Some (debited p uid u)) us) as Hin
    by (rewrite Hf; left).
  clear Hidseq Hf.
  apply list_elem_of_filter in Hin as [[b' Hdeb] Hin].
  pose proof Hdeb as Hdeb'.
  apply debited_Some in Hdeb' as (Huid & b & Hbal & Hle & ->).
  apply list_elem_of_split in Hin as (l1 & l2 & ->).
  pose proof (NoDup_fmap_around user_id l1 l2 buyer Hnd) as Hother.
  rewrite Huid in Hother.
  assert (∀ y, y ∈ l1 → user_id y ≠ uid) as H1
    by (intros y Hy; apply Hother, elem_of_app; by left).
  assert (∀ y, y ∈ l2 → user_id y ≠ uid) as H2
    by (intros y Hy; apply Hother, elem_of_app; by right).
  rewrite (update_debit_rows_app_other _ _ _ l1 _ H1) in Hupd.
  simpl in Hupd.
  rewrite update_debit_rows_none in Hupd
    by (intros y Hy; by apply debited_other, H2).
  rewrite Hdeb in Hupd.
  destruct (decide (numeric_10_2 (b - p))) as [Hfit|Hfit]; [|done].
  simplify_eq/=. exists l1, buyer, l2, b. by split_and!.
Qed.

(** ** [createSubscription] *)

Ltac unfold_createSubscription :=
  unfold createSubscription, transaction, createSubscription_body,
    mbind, tx_bind, mret, tx_ret, tx_throw,
    select_price, update_debit, add_days, insert_subscription.

(** ROLLBACK: an error leaves the store as it was. *)
Lemma createSubscription_Throw e uid tid sid days db err db' :
  createSubscription e uid tid sid days db = (Throw err, db') → db' = db.
Proof.
  unfold createSubscription, transaction.
  destruct (createSubscription_body e uid tid sid days db) as [[r|err'] w];
    by intros [= <-].
Qed.

(** COMMIT: what a successful run has checked and written. *)
Lemma createSubscription_Ok e uid tid sid days db r db' :
  createSubscription e uid tid sid days db = (Ok r, db') →
  ∃ p rows ids,
    head (price <$> filter (λ t, tariff_id t = tid) (tariffs db)) = Some p ∧
    update_debit_rows (env_now e) p uid (users db) = Ok (rows, ids) ∧
    ids ≠ [] ∧
    (randomUUID e ∉ xray_uuid <$> subscriptions db) ∧
    (gen_random_uuid e ∉ sub_id <$> subscriptions db) ∧
    sid ∈ server_id <$> servers db ∧
    db' = with_subscriptions
            (subscriptions db ++ [new_subscription e uid tid sid (default 30 days)])
            (with_users rows db) ∧
    r = true.
Proof.
  unfold_createSubscription. simpl.
  destruct (decide (smallint tid)) as [Hsmall|]; [|done]. simpl.
  destruct (price <$> filter (λ t, tariff_id t = tid) (tariffs db))
    as [|p ps] eqn:Hprice; [done|]. simpl.
  destruct (update_debit_rows (env_now e) p uid (users db))
    as [[rows ids]|] eqn:Hupd; [|done]. simpl.
  destruct (decide (length ids = 0%nat)) as [|Hlen]; [done|]. simpl.
  repeat case_decide; try done.
  intros [= <- <-]. exists p, rows, ids.
  split_and!; try done.
  intros ->. by apply Hlen.
Qed.

(** What a successful run has checked of its parameters. *)
Lemma createSubscription_Ok_checked e uid tid sid days db r db' :
  createSubscription e uid tid sid days db = (Ok r, db') →
  smallint tid ∧ interval_days (default 30 days) ∧
  timestamptz_range (env_now e + default 30 days * microseconds_per_day).
Proof.
  unfold_createSubscription. simpl.
  destruct (decide (smallint tid)) as [Hsmall|]; [|done]. simpl.
  destruct (price <$> filter (λ t, tariff_id t = tid) (tariffs db))
    as [|p ps] eqn:Hprice; [done|]. simpl.
  destruct (update_debit_rows (env_now e) p uid (users db))
    as [[rows ids]|] eqn:Hupd; [|done]. simpl.
  destruct (decide (length ids = 0%nat)) as [|Hlen]; [done|]. simpl.
  destruct (decide (interval_days (default 30 days))); [|done].
  destruct (decide (timestamptz_range _)); [|done].
  done.
Qed.

Lemma filter_unique_key {A B} `{EqDecision B} (f : A → B) (l : list A) (x : A) :
  NoDup (f <$> l) → x ∈ l → filter (λ y, f y = f x) l = [x].
Proof.
  intros Hnd Hx. apply list_elem_of_split in Hx as (l1 & l2 & ->).
  pose proof (NoDup_fmap_around f l1 l2 x Hnd) as Hother.
  assert (∀ l', (∀ y, y ∈ l' → y ∈ l1 ++ l2) → filter (λ y, f y = f x) l' = [])
    as Hnil.
  { intros l' Hl'. apply elem_of_nil_inv. intros y Hy.
    apply list_elem_of_filter in Hy as [Heq Hy].
    apply (Hother y); [by apply Hl'|done]. }
  rewrite filter_app, filter_cons_True by done.
  rewrite !Hnil; [done|..]; intros y Hy; apply elem_of_app; auto.
Qed.

(** The plan [tariffs.find(t => t.id == tariffId)] finds, and the row
    [SELECT price ... WHERE id = $1] returns, under the primary key. *)
Lemma getTariffs_find db plan :
  NoDup (tariff_id <$> tariffs db) → plan ∈ tariffs db →
  head (filter (λ t, tariff_id t = tariff_id plan) (getTariffs db)) = Some plan.
Proof.
  intros Hnd Hin.
  assert (filter (λ t, tariff_id t = tariff_id plan) (getTariffs db) ≡ₚ [plan])
    as Hperm.
  { rewrite <- (filter_unique_key tariff_id (tariffs db) plan Hnd Hin).
    unfold getTariffs, order_by. by rewrite merge_sort_Permutation. }
  apply Permutation_singleton_r in Hperm. by rewrite Hperm.
Qed.

(** C4. A run of [createSubscription] that succeeds has found the buyer's
    balance [b] at or above the plan's price; afterwards the buyer's row
    holds the balance [b - price], every other column of it but
    [updated_at] and every other user's row are as before, and the
    subscriptions are those of before followed by one new row: [active],
    for that user, plan and server, with the fresh credential id and the
    expiry [durationDays] days on; the tables of plans and servers are as
    before. When the balance is below the price (or NULL) the run throws
    "Insufficient balance" and the store is as before. *)
Theorem createSubscription_debits_and_inserts e uid tid sid days db :
  NoDup (user_id <$> users db) →
  NoDup (tariff_id <$> tariffs db) →
  (∀ r db',
     createSubscription e uid tid sid days db = (Ok r, db') →
     ∃ plan l1 buyer l2 b buyer' row,
       plan ∈ tariffs db ∧ tariff_id plan = tid ∧
       users db = l1 ++ buyer :: l2 ∧ user_id buyer = uid ∧
       balance buyer = Some b ∧ price plan ≤ b ∧
       users db' = l1 ++ buyer' :: l2 ∧
       balance buyer' = Some (b - price plan) ∧
       user_id buyer' = uid ∧ tg_id buyer' = tg_id buyer ∧
       username buyer' = username buyer ∧ full_name buyer' = full_name buyer ∧
       language buyer' = language buyer ∧
       user_created_at buyer' = user_created_at buyer ∧
       user_updated_at buyer' = env_now e ∧
       subscriptions db' = subscriptions db ++ [row] ∧
       status row = active ∧ sub_user_id row = uid ∧
       sub_tariff_id row = tid ∧ sub_server_id row = sid ∧
       xray_uuid row = randomUUID e ∧
       expire_date row = env_now e + default 30 days * microseconds_per_day ∧
       tariffs db' = tariffs db ∧ servers db' = servers db) ∧
  (∀ plan buyer,
     plan ∈ tariffs db → tariff_id plan = tid → smallint tid →
     buyer ∈ users db → user_id buyer = uid →
     (∀ b, balance buyer = Some b → b < price plan) →
     createSubscription e uid tid sid days db
     = (Throw (Error "Insufficient balance"), db)).
Proof.
  intros Hpk Htpk. split.
  - intros r db' Hok.
    apply createSubscription_Ok in Hok
      as (p & rows & ids & Hp & Hupd & Hids & _ & _ & _ & -> & _).
    destruct (filter (λ t, tariff_id t = tid) (tariffs db)) as [|plan ps] eqn:Hf;
      [done|].
    assert (plan ∈ filter (λ t, tariff_id t = tid) (tariffs db)) as Hplan
      by (rewrite Hf; left).
    apply list_elem_of_filter in Hplan as [Htid Hplan].
    simpl in Hp. injection Hp as <-.
    destruct (update_debit_rows_buyer _ _ _ _ _ _ Hpk Hupd Hids)
      as (l1 & buyer & l2 & b & Hus & Hbuyer & Hbal & Hle & _ & -> & _).
    exists plan, l1, buyer, l2, b,
      (set_balance (env_now e) (b - price plan) buyer),
      (new_subscription e uid tid sid (default 30 days)).
    by split_and!.
  - intros plan buyer Hplan Htid Hsmall Hbuyer Huid Hlow.
    unfold_createSubscription. simpl. subst tid.
    rewrite decide_True by done. simpl.
    rewrite (filter_unique_key tariff_id _ _ Htpk Hplan). simpl.
    rewrite update_debit_rows_none; [done|].
    intros u Hu. destruct (debited (price plan) uid u) as [b'|] eqn:Hdeb; [|done].
    apply debited_Some in Hdeb as (Hid & b & Hbal & Hle & _).
    assert (u = buyer) as ->.
    { apply list_elem_of_split in Hbuyer as (l1 & l2 & Hsplit).
      rewrite Hsplit in Hu, Hpk.
      pose proof (NoDup_fmap_around user_id l1 l2 buyer Hpk) as Hother.
      apply elem_of_app in Hu as [Hu|Hu].
      - exfalso. apply (Hother u); [apply elem_of_app; by left|congruence].
      - apply elem_of_cons in Hu as [?|Hu]; [done|].
        exfalso. apply (Hother u); [apply elem_of_app; by right|congruence]. }
    specialize (Hlow b Hbal). lia.
Qed.

Lemma createSubscription_debits_and_inserts_witness :
  (createSubscription an_env (user_id bob) 1 (server_id node_d) None store_open).1
  = Ok true ∧
  balance <$> users store_open = [Some 10000; Some 10000] ∧
  balance <$> users (createSubscription an_env (user_id bob) 1 (server_id node_d)
                       None store_open).2
  = [Some 10000; Some 7100] ∧
  ∃ plan l1 buyer l2 b buyer' row,
    plan ∈ tariffs store_open ∧ tariff_id plan = 1 ∧
    users store_open = l1 ++ buyer :: l2 ∧ user_id buyer = user_id bob ∧
    balance buyer = Some b ∧ price plan ≤ b ∧
    users (createSubscription an_env (user_id bob) 1 (server_id node_d) None
             store_open).2
    = l1 ++ buyer' :: l2 ∧
    balance buyer' = Some (b - price plan) ∧
    user_id buyer' = user_id bob ∧ tg_id buyer' = tg_id buyer ∧
    username buyer' = username buyer ∧ full_name buyer' = full_name buyer ∧
    language buyer' = language buyer ∧
    user_created_at buyer' = user_created_at buyer ∧
    user_updated_at buyer' = env_now an_env ∧
    subscriptions (createSubscription an_env (user_id bob) 1 (server_id node_d)
                     None store_open).2
    = subscriptions store_open ++ [row] ∧
    status row = active ∧ sub_user_id row = user_id bob ∧
    sub_tariff_id row = 1 ∧ sub_server_id row = server_id node_d ∧
    xray_uuid row = randomUUID an_env ∧
    expire_date row = env_now an_env + default 30 None * microseconds_per_day ∧
    tariffs (createSubscription an_env (user_id bob) 1 (server_id node_d) None
               store_open).2
    = tariffs store_open ∧
    servers (createSubscription an_env (user_id bob) 1 (server_id node_d) None
               store_open).2
    = servers store_open.
Proof.
  split_and!; [by vm_compute..|].
  destruct (createSubscription_debits_and_inserts
              an_env (user_id bob) 1 (server_id node_d) None store_open)
    as [Hok _].
  - apply (bool_decide_unpack _). by vm_compute.
  - apply (bool_decide_unpack _). by vm_compute.
  - apply (Hok true). by vm_compute.
Defined.

(** ** The purchase handler *)

(** Either the handler leaves the store alone, or it has found a plan and a
    server and [createSubscription] has committed; then it has replied with
    the plan's name or, that reply rejected, with the error text. *)
Lemma buy_cases e u tid db out db' :
  buy e u tid db = (out, db') →
  db' = db ∨
  ∃ plan sid,
    plan ∈ tariffs db ∧ tariff_id plan = tid ∧
    balance_below (balance u) (price plan) = false ∧
    findBestServer_tie (env_tie e) db = Some sid ∧
    createSubscription e (user_id u) tid sid None db = (Ok true, db') ∧
    (out = Replied (SuccessReply (tariff_name plan)) ∨
     is_Some (env_reply e (SuccessReply (tariff_name plan))) ∧
     out = ctx_reply e ErrorReply).
Proof.
  unfold buy.
  destruct (head (filter (λ t, tariff_id t = tid) (getTariffs db)))
    as [plan|] eqn:Hplan; [|intros [= <- <-]; by left].
  destruct (balance_below (balance u) (price plan)) eqn:Hbal;
    [intros [= <- <-]; by left|].
  destruct (findBestServer_tie (env_tie e) db) as [sid|] eqn:Hsrv;
    [|intros [= <- <-]; by left].
  apply head_Some_elem_of, list_elem_of_filter in Hplan as [Htid Hplan].
  unfold getTariffs, order_by in Hplan. rewrite merge_sort_Permutation in Hplan.
  rewrite Htid.
  destruct (createSubscription e (user_id u) tid sid None db) as [[r|err] db1]
    eqn:Hcs.
  - intros Hout. right. exists plan, sid.
    pose proof Hcs as Hok.
    apply createSubscription_Ok in Hok as (_ & _ & _ & _ & _ & _ & _ & _ & _ & _ & ->).
    destruct (env_reply e (SuccessReply (tariff_name plan))) eqn:Hreply;
      injection Hout as <- <-; split_and!; eauto.
  - intros [= <- <-]. left. by apply createSubscription_Throw in Hcs.
Qed.




(** The reply of success is sent after the COMMIT: when Telegram rejects
    it, the handler replies with the error text and the purchase stands. *)
Lemma buy_success_reply_rejected e u tid db plan sid r db' :
  head (filter (λ t, tariff_id t = tid) (getTariffs db)) = Some plan →
  balance_below (balance u) (price plan) = false →
  findBestServer_tie (env_tie e) db = Some sid →
  createSubscription e (user_id u) (tariff_id plan) sid None db = (Ok r, db') →
  is_Some (env_reply e (SuccessReply (tariff_name plan))) →
  buy e u tid db = (ctx_reply e ErrorReply, db').
Proof.
  intros Hplan Hbal Hsrv Hcs [err Herr]. unfold buy.
  by rewrite Hplan, Hbal, Hsrv, Hcs, Herr.
Qed.

Lemma createUser_subscriptions e tgId name db :
  subscriptions (createUser e tgId name db).2 = subscriptions db.
Proof.
  unfold createUser.
  destruct (filter (λ u, tg_id u = tgId) (users db)); [|done].
  by repeat case_decide.
Qed.

(** The row the middleware stores in [ctx.user] is a row of the store it
    leaves, and registration touches neither balances nor subscriptions. *)
Lemma createUser_Ok_in_store e tgId name db u db1 :
  createUser e tgId name db = (Ok u, db1) →
  u ∈ users db1 ∧ tg_id u = tgId ∧
  subscriptions db1 = subscriptions db ∧
  servers db1 = servers db ∧ tariffs db1 = tariffs db ∧
  (balance <$> users db1 = balance <$> users db ∨
   balance <$> users db1 = (balance <$> users db) ++ [Some 0]).
Proof.
  unfold createUser.
  destruct (filter (λ u, tg_id u = tgId) (users db)) as [|u0 rest] eqn:Hf.
  - repeat case_decide; try done.
    intros [= <- <-]. simpl. split_and!; try done.
    + apply elem_of_app. right. left.
    + right. by rewrite fmap_app.
  - intros [= <- <-]. simpl.
    assert (u0 ∈ filter (λ u, tg_id u = tgId) (users db)) as Hin
      by (rewrite Hf; left).
    apply list_elem_of_filter in Hin as [Htg Hin].
    split_and!; try done.
    + apply list_elem_of_fmap. exists u0. split; [|done].
      unfold upsert_username. by rewrite decide_True.
    + left. rewrite <- list_fmap_compose. apply list_fmap_ext.
      intros i y _. simpl. unfold upsert_username. by case_decide.
Qed.

Lemma buy_success_reply_rejected_example :
  (buy env_success_rejected bob 1 store_open).1 = Replied ErrorReply ∧
  balance <$> users (buy env_success_rejected bob 1 store_open).2
  = [Some 10000; Some 7100] ∧
  length (subscriptions (buy env_success_rejected bob 1 store_open).2) = 1%nat.
Proof. split_and!; by vm_compute. Qed.

(** One update through middleware and handler: the store is the one
    registration left, or [createSubscription] has committed on it. *)
Lemma handle_buy_cases e_mw e tgId name tid db out db' :
  handle_buy e_mw e tgId name tid db = (out, db') →
  db' = (createUser e_mw tgId name db).2 ∨
  ∃ u sid,
    (createUser e_mw tgId name db).1 = Ok u ∧
    createSubscription e (user_id u) tid sid None (createUser e_mw tgId name db).2
    = (Ok true, db').
Proof.
  unfold handle_buy. intros Hrun.
  destruct (createUser e_mw tgId name db) as [[u|err] db1]; simpl in *.
  - apply buy_cases in Hrun as [->|(plan & sid & _ & _ & _ & _ & Hcs & _)];
      [by left|right; eauto].
  - left. by simplify_eq.
Qed.

(** [createSubscription] reads the servers table for the foreign key of
    [server_id] and for nothing else. *)
Lemma createSubscription_with_servers e uid tid sid days db srvs :
  server_id <$> srvs = server_id <$> servers db →
  createSubscription e uid tid sid days (with_servers srvs db)
  = ((createSubscription e uid tid sid days db).1,
     with_servers srvs (createSubscription e uid tid sid days db).2).
Proof.
  intros Hids. unfold_createSubscription. simpl.
  destruct (decide (smallint tid)); [|done]. simpl.
  destruct (price <$> filter (λ t, tariff_id t = tid) (tariffs db))
    as [|p ps]; [done|]. simpl.
  destruct (update_debit_rows (env_now e) p uid (users db))
    as [[rows ids]|]; [|done]. simpl.
  destruct (decide (length ids = 0%nat)); [done|]. simpl.
  destruct (decide (interval_days (default 30 days))); [|done].
  destruct (decide (timestamptz_range _)); [|done]. simpl.
  rewrite Hids. by repeat case_decide.
Qed.

(** The conditional update inside [createSubscription] guards the balance
    and nothing else: the outcome is the same whatever the [max_users] of
    the servers. *)
Lemma createSubscription_ignores_max_users e uid tid sid days db f :
  (createSubscription e uid tid sid days
     (with_servers (set_max_users f <$> servers db) db)).1
  = (createSubscription e uid tid sid days db).1.
Proof.
  rewrite createSubscription_with_servers; [done|].
  rewrite <- list_fmap_compose. by apply list_fmap_ext.
Qed.

(** C5, where the code fails the claim. [node_c] has [max_users = 1], the
    "hard limit" of [init.sql], and no subscription. Two purchase handlers
    run [findBestServer] before either has committed and both are given
    [node_c]. The first runs [createSubscription] for [ann] and commits:
    the node is at its limit. The second runs [createSubscription] for
    [bob] on that state and commits as well: the node holds two active
    subscriptions, one more than its limit. *)
Lemma createSubscription_oversells_full_node :
  let db1 := (createSubscription an_env (user_id ann) 1 (server_id node_c) None
                store_last_place).2 in
  let db2 := (createSubscription another_env (user_id bob) 1 (server_id node_c)
                None db1).2 in
  servers store_last_place = [node_c] ∧ max_users node_c = 1 ∧
  findBestServer_tie (env_tie an_env) store_last_place = Some (server_id node_c) ∧
  findBestServer_tie (env_tie another_env) store_last_place
  = Some (server_id node_c) ∧
  (createSubscription an_env (user_id ann) 1 (server_id node_c) None
     store_last_place).1 = Ok true ∧
  servers db1 = [node_c] ∧
  count_active (server_id node_c) (subscriptions db1) = 1 ∧
  findBestServer_result db1 None ∧
  (createSubscription another_env (user_id bob) 1 (server_id node_c) None db1).1
  = Ok true ∧
  servers db2 = [node_c] ∧
  count_active (server_id node_c) (subscriptions db2) = 2 ∧
  length (subscriptions db2) = S (length (subscriptions db1)).
Proof.
  split_and!; try by vm_compute.
  apply first_ordered_by_None. by vm_compute.
Qed.

(** ** Uniqueness of the credential identifier *)

(** The INSERT of step 3 is refused when the new [xray_uuid] is taken. *)
Lemma createSubscription_uq_xray_uuid e uid tid sid days db :
  uq_xray_uuid db → uq_xray_uuid (createSubscription e uid tid sid days db).2.
Proof.
  intros Huq.
  destruct (createSubscription e uid tid sid days db) as [[r|err] db'] eqn:Hcs.
  - apply createSubscription_Ok in Hcs
      as (p & rows & ids & _ & _ & _ & Hfresh & _ & _ & -> & _).
    unfold uq_xray_uuid in *. simpl.
    rewrite fmap_app. apply NoDup_app. split_and!; [done| |].
    + intros x Hx Hx'. apply list_elem_of_singleton in Hx'. by subst.
    + apply NoDup_singleton.
  - apply createSubscription_Throw in Hcs. by subst.
Qed.

Lemma run_event_uq_xray_uuid ev db :
  uq_xray_uuid db → uq_xray_uuid (run_event ev db).
Proof.
  intros Huq. destruct ev as [e tgId name|e u tid|e uid tid sid days|]; simpl.
  - unfold uq_xray_uuid. by rewrite createUser_subscriptions.
  - destruct (buy e u tid db) as [out db'] eqn:Hbuy. simpl.
    apply buy_cases in Hbuy as [->|(plan & sid & _ & _ & _ & _ & Hcs & _)];
      [done|].
    pose proof (createSubscription_uq_xray_uuid e (user_id u) tid sid None db Huq)
      as Huq'.
    by rewrite Hcs in Huq'.
  - by apply createSubscription_uq_xray_uuid.
  - done.
Qed.

(** C6. In every store state the bot can reach, no two subscription rows
    carry the same [xray_uuid]: the list of credential identifiers has no
    duplicate, so two rows with the same identifier are the same row of the
    table. Each event, [createSubscription] among them, keeps it so. *)
Theorem reachable_xray_uuid_unique db :
  reachable db →
  uq_xray_uuid db ∧
  (∀ i j s1 s2,
     subscriptions db !! i = Some s1 → subscriptions db !! j = Some s2 →
     xray_uuid s1 = xray_uuid s2 → i = j) ∧
  (∀ ev, uq_xray_uuid (run_event ev db)).
Proof.
  intros Hreach.
  assert (uq_xray_uuid db) as Huq.
  { induction Hreach as [db Hnone|ev db Hreach IH].
    - unfold uq_xray_uuid. rewrite Hnone. apply NoDup_nil_2.
    - by apply run_event_uq_xray_uuid. }
  split_and!; [done| |].
  - intros i j s1 s2 Hi Hj Heq. unfold uq_xray_uuid in Huq.
    eapply NoDup_lookup; [exact Huq| |].
    + rewrite list_lookup_fmap, Hi. done.
    + rewrite list_lookup_fmap, Hj. simpl. by rewrite Heq.
  - intros ev. by apply run_event_uq_xray_uuid.
Qed.

Lemma reachable_xray_uuid_unique_witness :
  uq_xray_uuid store_after_two_purchases ∧
  length (subscriptions store_after_two_purchases) = 2%nat.
Proof.
  split.
  - apply (reachable_xray_uuid_unique store_after_two_purchases).
    unfold store_after_two_purchases.
    apply reachable_step, reachable_step, reachable_init. reflexivity.
  - by vm_compute.
Defined.

(** ** Expiry Sweeper *)

Lemma sweep_row_not_due now s : ¬ expiry_due now s → sweep_row now s = s.
Proof. intros. unfold sweep_row. by rewrite decide_False. Qed.

Lemma sweep_row_due now s :
  expiry_due now s → sweep_row now s = set_status now expired s.
Proof. intros. unfold sweep_row. by rewrite decide_True. Qed.

Lemma sweep_row_never_due now now' s : ¬ expiry_due now' (sweep_row now s) ∨
  (¬ expiry_due now s ∧ sweep_row now s = s).
Proof.
  destruct (decide (expiry_due now s)) as [Hdue|Hnot].
  - left. rewrite sweep_row_due by done. by intros [? _].
  - right. split; [done|]. by apply sweep_row_not_due.
Qed.

Lemma with_subscriptions_same db : with_subscriptions (subscriptions db) db = db.
Proof. by destruct db. Qed.

(** A sweep that finds nothing due queues nothing and changes nothing. *)
Lemma expirySweep_nothing_due now db :
  (∀ s, s ∈ subscriptions db → ¬ expiry_due now s) →
  expirySweep now db = ([], db).
Proof.
  intros Hnone. unfold expirySweep. f_equal.
  - replace (filter (expiry_due now) (subscriptions db)) with (@nil subscription);
      [done|].
    symmetry. apply elem_of_nil_inv. intros s Hs.
    apply list_elem_of_filter in Hs as [Hdue Hs]. by apply (Hnone s).
  - assert (sweep_row now <$> subscriptions db = subscriptions db) as ->.
    { rewrite <- (list_fmap_id (subscriptions db)) at 2.
      apply list_fmap_ext. intros i s Hs%list_elem_of_lookup_2.
      by apply sweep_row_not_due, Hnone. }
    apply with_subscriptions_same.
Qed.

(** C7. The sweep rewrites the subscriptions row by row. An [active]
    subscription is [expired] after the sweep if and only if its expiry
    timestamp is strictly before the sweep time, and only [active] rows move
    to [expired]; a row that is not due, an already [expired] one among
    them, is left exactly as it is; sweeping again, at the same time or on a
    table of [expired] rows at any time, queues nothing and changes
    nothing. *)
Theorem expirySweep_expires_exactly_the_due now db :
  subscriptions (expirySweep now db).2 = sweep_row now <$> subscriptions db ∧
  (∀ s, status s = active →
        (status (sweep_row now s) = expired ↔ expire_date s < now)) ∧
  (∀ s, (status s ≠ expired ∧ status (sweep_row now s) = expired)
        ↔ (status s = active ∧ expire_date s < now)) ∧
  (∀ s, ¬ (status s = active ∧ expire_date s < now) → sweep_row now s = s) ∧
  (∀ s, status s = expired → sweep_row now s = s) ∧
  (∀ now', (∀ s, s ∈ subscriptions db → status s = expired) →
           expirySweep now' db = ([], db)) ∧
  expirySweep now (expirySweep now db).2 = ([], (expirySweep now db).2).
Proof.
  split_and!.
  - done.
  - intros s Hact. unfold sweep_row, expiry_due.
    case_decide as Hdue.
    + split; [by intros _; destruct Hdue|done].
    + split; [rewrite Hact; done|]. intros Hlt. by destruct Hdue.
  - intros s. unfold sweep_row, expiry_due.
    case_decide as Hdue.
    + destruct Hdue as [Hact Hlt]. split; [done|]. intros _.
      split; [by rewrite Hact|done].
    + split; [by intros [? ?]|]. intros [? ?]. by destruct Hdue.
  - intros s Hnot. by apply sweep_row_not_due.
  - intros s Hexp. apply sweep_row_not_due. unfold expiry_due.
    rewrite Hexp. by intros [? _].
  - intros now' Hall. apply expirySweep_nothing_due.
    intros s Hs [Hact _]. rewrite (Hall s Hs) in Hact. done.
  - apply expirySweep_nothing_due. simpl.
    intros s' (s & -> & Hs)%list_elem_of_fmap.
    destruct (sweep_row_never_due now now s) as [Hnot|[Hnot ->]]; done.
Qed.

Lemma expirySweep_expires_exactly_the_due_witness :
  status (sweep_row 6000 (a_subscription "sub-1" "user-1" "node-a" "xid-1" active))
  = expired.
Proof.
  destruct (expirySweep_expires_exactly_the_due 6000 store_full) as (_ & Hiff & _).
  apply (Hiff (a_subscription "sub-1" "user-1" "node-a" "xid-1" active)).
  - reflexivity.
  - by vm_compute.
Defined.

(** ** Node Client *)

(** C8. For every node state and credential id, and whatever happens to
    the tries of a call, calling [addCredential] twice yields the node state
    that calling it once yields, and so does [removeCredential]. Once a call
    has succeeded, a further call with the same id, with any tier and label
    and over any transport, leaves the node as it is; when it reaches the
    node it is answered "already exists" (for an add) or "not found" (for a
    remove) and reports success. *)
Theorem addCredential_removeCredential_idempotent
    (net net' : list attempt) (id : string) (t t' : Z) (l l' : string)
    (n : gmap string credential) :
  ((addCredential net id t l (addCredential net id t l n).2).2
   = (addCredential net id t l n).2 ∧
   ((addCredential net id t l n).1 = Succeeded →
    (addCredential net' id t' l' (addCredential net id t l n).2).2
    = (addCredential net id t l n).2 ∧
    (AddUser id t' l' (addCredential net id t l n).2).1 = AlreadyExists ∧
    (transport max_attempts net' = None →
     (addCredential net' id t' l' (addCredential net id t l n).2).1 = Succeeded))) ∧
  ((removeCredential net id (removeCredential net id n).2).2
   = (removeCredential net id n).2 ∧
   ((removeCredential net id n).1 = Succeeded →
    (removeCredential net' id (removeCredential net id n).2).2
    = (removeCredential net id n).2 ∧
    (RemoveUser id (removeCredential net id n).2).1 = NotFound ∧
    (transport max_attempts net' = None →
     (removeCredential net' id (removeCredential net id n).2).1 = Succeeded))).
Proof.
  split.
  - assert ((addCredential net id t l n).1 = Succeeded →
            is_Some ((addCredential net id t l n).2 !! id)) as Hloaded.
    { unfold addCredential. destruct (transport max_attempts net); [done|].
      intros _. unfold AddUser.
      destruct (n !! id) as [c|] eqn:Hn; simpl.
      - by rewrite Hn.
      - by rewrite lookup_insert_eq. }
    split.
    + unfold addCredential in *.
      destruct (transport max_attempts net) as [why|] eqn:Hnet; simpl.
      * done.
      * destruct Hloaded as [c Hc]; [by destruct (AddUser id t l n) as [[] ?]|].
        revert Hc. generalize (AddUser id t l n). intros [r m] Hc.
        assert (m !! id = Some c) as Hm by (by destruct r).
        destruct r; simpl; unfold AddUser; by rewrite Hm.
    + intros Hok. destruct (Hloaded Hok) as [c Hc].
      revert Hc. generalize (addCredential net id t l n).2. intros m Hc.
      unfold addCredential, AddUser. rewrite Hc.
      split_and!; [by destruct (transport max_attempts net')|done|].
      by intros ->.
  - assert ((removeCredential net id n).1 = Succeeded →
            (removeCredential net id n).2 !! id = None) as Hgone.
    { unfold removeCredential. destruct (transport max_attempts net); [done|].
      intros _. unfold RemoveUser.
      destruct (n !! id) as [c|] eqn:Hn; simpl.
      - by rewrite lookup_delete_eq.
      - done. }
    split.
    + unfold removeCredential in *.
      destruct (transport max_attempts net) as [why|] eqn:Hnet; simpl.
      * done.
      * pose proof (Hgone ltac:(by destruct (RemoveUser id n) as [[] ?])) as Hc.
        revert Hc. generalize (RemoveUser id n). intros [r m] Hc.
        assert (m !! id = None) as Hm by (by destruct r).
        destruct r; simpl; unfold RemoveUser; by rewrite Hm.
    + intros Hok. pose proof (Hgone Hok) as Hc.
      revert Hc. generalize (removeCredential net id n).2. intros m Hc.
      unfold removeCredential, RemoveUser. rewrite Hc.
      split_and!; [by destruct (transport max_attempts net')|done|].
      by intros ->.
Qed.

Lemma addCredential_removeCredential_idempotent_witness :
  (addCredential [Reached] "xid-1" 2 "user_2_xid"
     (addCredential [TimedOut; Reached] "xid-1" 1 "user_1_xid" ∅).2).2
  = (addCredential [TimedOut; Reached] "xid-1" 1 "user_1_xid" ∅).2.
Proof.
  destruct (addCredential_removeCredential_idempotent
              [TimedOut; Reached] [Reached] "xid-1" 1 2 "user_1_xid" "user_2_xid" ∅)
    as [[_ Hadd] _].
  apply Hadd. reflexivity.
Defined.

(** * Further properties of the code *)

(** ** Lookup after registration *)

Lemma filter_tg_id_upsert now tgId name tgId' (l : list user) :
  filter (λ u, tg_id u = tgId') (upsert_username now tgId name <$> l)
  = upsert_username now tgId name <$> filter (λ u, tg_id u = tgId') l.
Proof.
  assert (∀ u, tg_id (upsert_username now tgId name u) = tg_id u) as Htg.
  { intros u. unfold upsert_username. by case_decide. }
  induction l as [|u l IH]; [done|].
  rewrite fmap_cons. destruct (decide (tg_id u = tgId')) as [Heq|Hne].
  - rewrite !filter_cons_True by (by rewrite ?Htg).
    by rewrite fmap_cons, IH.
  - rewrite !filter_cons_False by (by rewrite ?Htg). done.
Qed.

Lemma getUser_None tgId db :
  getUser tgId db = None ↔ ∀ u, u ∈ users db → tg_id u ≠ tgId.
Proof.
  unfold getUser. split.
  - intros Hnone u Hu Heq.
    destruct (filter (λ u, tg_id u = tgId) (users db)) as [|u0 l] eqn:Hf; [|done].
    assert (u ∈ filter (λ u, tg_id u = tgId) (users db)) as Hin
      by (by apply list_elem_of_filter).
    rewrite Hf in Hin. by apply not_elem_of_nil in Hin.
  - intros Hnone. by rewrite filter_tg_id_nil.
Qed.

(** X1. Registration and lookup. After a [createUser] that returns,
    [getUser] with the same [tg_id] gives the row [createUser] returned, and
    [getUser] with any other [tg_id] gives what it gave before. When the
    [tg_id] was not in the table, the returned row has balance 0.00, and the
    table has grown by that one row. *)
Theorem createUser_then_getUser e tgId name db u db1 :
  createUser e tgId name db = (Ok u, db1) →
  getUser tgId db1 = Some u ∧
  (∀ tgId', tgId' ≠ tgId → getUser tgId' db1 = getUser tgId' db) ∧
  (getUser tgId db = None →
   balance u = Some 0 ∧ username u = name ∧ users db1 = users db ++ [u]).
Proof.
  unfold createUser, getUser.
  destruct (filter (λ u, tg_id u = tgId) (users db)) as [|u0 rest] eqn:Hf.
  - repeat case_decide; try done. intros [= <- <-]. simpl. split_and!.
    + by rewrite filter_app, Hf, filter_cons_True by done.
    + intros tgId' Hne.
      rewrite filter_app, filter_cons_False by (simpl; congruence).
      by rewrite filter_nil, app_nil_r.
    + done.
  - intros [= <- <-]. simpl.
    assert (u0 ∈ filter (λ u, tg_id u = tgId) (users db)) as Hin
      by (rewrite Hf; left).
    apply list_elem_of_filter in Hin as [Htg Hin].
    split_and!.
    + rewrite filter_tg_id_upsert, Hf. simpl.
      unfold upsert_username. by rewrite decide_True.
    + intros tgId' Hne. rewrite filter_tg_id_upsert.
      replace (upsert_username (env_now e) tgId name
                 <$> filter (λ u, tg_id u = tgId') (users db))
        with (filter (λ u, tg_id u = tgId') (users db)); [done|].
      rewrite <- (list_fmap_id (filter _ (users db))) at 1.
      apply list_fmap_ext. intros i y Hy%list_elem_of_lookup_2.
      apply list_elem_of_filter in Hy as [Hy _].
      unfold upsert_username. rewrite decide_False by congruence. done.
    + done.
Qed.

Lemma createUser_then_getUser_witness :
  getUser 77 (createUser an_env 77 (Some "zoe") store_start).2
  = Some (new_user an_env 77 (Some "zoe")).
Proof.
  apply (createUser_then_getUser an_env 77 (Some "zoe") store_start
           (new_user an_env 77 (Some "zoe"))
           (createUser an_env 77 (Some "zoe") store_start).2).
  by vm_compute.
Defined.

(** ** What one event does to the tables *)

Lemma user_step_ids db u u' :
  user_step db u u' →
  user_id u' = user_id u ∧ tg_id u' = tg_id u ∧
  user_created_at u' = user_created_at u.
Proof. by intros []. Qed.

Lemma Forall2_user_step_ids db us us' :
  Forall2 (user_step db) us us' →
  user_id <$> us' = user_id <$> us ∧ tg_id <$> us' = tg_id <$> us.
Proof.
  induction 1 as [|u u' us us' Hstep _ [IH1 IH2]]; [done|].
  apply user_step_ids in Hstep as (Hid & Htg & _).
  rewrite !fmap_cons. by rewrite Hid, Htg, IH1, IH2.
Qed.

Lemma Forall2_fmap_same {A} (R : A → A → Prop) (f : A → A) (l : list A) :
  (∀ x, x ∈ l → R x (f x)) → Forall2 R l (f <$> l).
Proof.
  induction l as [|x l IH]; intros H; [constructor|].
  rewrite fmap_cons. constructor.
  - apply H. left.
  - apply IH. intros y Hy. apply H. by right.
Qed.

(** Registration renames rows in place or appends one row with a new
    [tg_id], a new [id] and balance 0.00. *)
Lemma createUser_users e tgId name db :
  ∃ kept extra,
    users (createUser e tgId name db).2 = kept ++ extra ∧
    Forall2 (user_step db) (users db) kept ∧
    (extra = [] ∨
     extra = [new_user e tgId name] ∧
     (tgId ∉ tg_id <$> users db) ∧ gen_random_uuid e ∉ user_id <$> users db).
Proof.
  unfold createUser.
  destruct (filter (λ u, tg_id u = tgId) (users db)) as [|u0 rest] eqn:Hf.
  - assert (Forall2 (user_step db) (users db) (users db)) as Hsame.
    { rewrite <- (list_fmap_id (users db)) at 2.
      apply Forall2_fmap_same. intros; constructor. }
    case_decide;
      [|exists (users db), []; rewrite app_nil_r; split_and!; by auto].
    case_decide as Hid.
    + exists (users db), []. rewrite app_nil_r. split_and!; [done| |by left].
      rewrite <- (list_fmap_id (users db)) at 2.
      apply Forall2_fmap_same. intros; constructor.
    + exists (users db), [new_user e tgId name]. split_and!; [done| |right].
      * rewrite <- (list_fmap_id (users db)) at 2.
        apply Forall2_fmap_same. intros; constructor.
      * split_and!; [done| |done].
        intros (u & Htg & Hu)%list_elem_of_fmap.
        assert (u ∈ filter (λ u, tg_id u = tgId) (users db)) as Hin
          by (by apply list_elem_of_filter).
        rewrite Hf in Hin. by apply not_elem_of_nil in Hin.
  - exists (upsert_username (env_now e) tgId name <$> users db), [].
    rewrite app_nil_r. split_and!; [done| |by left].
    apply Forall2_fmap_same. intros u _. unfold upsert_username.
    case_decide; constructor.
Qed.

(** A committed [createSubscription] has debited rows in place, each by the
    price of a plan of the table, and has appended one subscription row
    that passes the constraints. *)
Lemma createSubscription_Ok_tables e uid tid sid days db r db' :
  createSubscription e uid tid sid days db = (Ok r, db') →
  tariffs db' = tariffs db ∧ servers db' = servers db ∧
  Forall2 (user_step db) (users db) (users db') ∧
  subscriptions db'
  = subscriptions db ++ [new_subscription e uid tid sid (default 30 days)] ∧
  (gen_random_uuid e ∉ sub_id <$> subscriptions db) ∧
  (randomUUID e ∉ xray_uuid <$> subscriptions db) ∧
  uid ∈ user_id <$> users db ∧
  sid ∈ server_id <$> servers db ∧
  tid ∈ tariff_id <$> tariffs db.
Proof.
  intros Hok.
  apply createSubscription_Ok in Hok
    as (p & rows & ids & Hp & Hupd & Hids & Hxid & Hsid & Hsrv & -> & _).
  destruct (filter (λ t, tariff_id t = tid) (tariffs db)) as [|plan ps] eqn:Hf;
    [done|].
  assert (plan ∈ filter (λ t, tariff_id t = tid) (tariffs db)) as Hplan
    by (rewrite Hf; left).
  apply list_elem_of_filter in Hplan as [Htid Hplan].
  simpl in Hp. injection Hp as <-.
  destruct (update_debit_rows_Ok _ _ _ _ _ _ Hupd) as [-> ->].
  simpl. split_and!; try done.
  - apply Forall2_fmap_same. intros u _.
    destruct (debited (price plan) uid u) as [b'|] eqn:Hdeb; simpl.
    + apply debited_Some in Hdeb as (_ & b & Hbal & Hle & ->).
      by apply user_debited.
    + constructor.
  - destruct (filter (λ u, is_Some (debited (price plan) uid u)) (users db))
      as [|buyer l] eqn:Hfu; [done|].
    assert (buyer ∈ filter (λ u, is_Some (debited (price plan) uid u)) (users db))
      as Hin by (rewrite Hfu; left).
    apply list_elem_of_filter in Hin as [[b' Hdeb] Hin].
    apply debited_Some in Hdeb as (<- & _).
    by apply list_elem_of_fmap_2.
  - rewrite <- Htid. by apply list_elem_of_fmap_2.
Qed.

(** The effect of any event, table by table. *)
Lemma run_event_tables ev db :
  tariffs (run_event ev db) = tariffs db ∧
  servers (run_event ev db) = servers db ∧
  (∃ kept extra,
     users (run_event ev db) = kept ++ extra ∧
     Forall2 (user_step db) (users db) kept ∧
     (extra = [] ∨
      ∃ e tgId name,
        extra = [new_user e tgId name] ∧
        (tgId ∉ tg_id <$> users db) ∧ gen_random_uuid e ∉ user_id <$> users db)) ∧
  (subscriptions (run_event ev db) = subscriptions db ∨
   ∃ e uid tid sid days,
     subscriptions (run_event ev db)
     = subscriptions db ++ [new_subscription e uid tid sid days] ∧
     (gen_random_uuid e ∉ sub_id <$> subscriptions db) ∧
     (randomUUID e ∉ xray_uuid <$> subscriptions db) ∧
     uid ∈ user_id <$> users db ∧
     sid ∈ server_id <$> servers db ∧
     tid ∈ tariff_id <$> tariffs db).
Proof.
  assert (∀ d : DB, ∃ kept extra,
     users d = kept ++ extra ∧ Forall2 (user_step d) (users d) kept ∧
     (extra = [] ∨
      ∃ e tgId name,
        extra = [new_user e tgId name] ∧
        (tgId ∉ tg_id <$> users d) ∧ gen_random_uuid e ∉ user_id <$> users d))
    as Hsame.
  { intros d. exists (users d), []. rewrite app_nil_r. split_and!; [done| |by left].
    rewrite <- (list_fmap_id (users d)) at 2.
    apply Forall2_fmap_same. intros; constructor. }
  assert (∀ e uid tid sid days,
    let db' := (createSubscription e uid tid sid days db).2 in
    tariffs db' = tariffs db ∧ servers db' = servers db ∧
    (∃ kept extra,
       users db' = kept ++ extra ∧
       Forall2 (user_step db) (users db) kept ∧
       (extra = [] ∨
        ∃ e tgId name,
          extra = [new_user e tgId name] ∧
          (tgId ∉ tg_id <$> users db) ∧ gen_random_uuid e ∉ user_id <$> users db)) ∧
    (subscriptions db' = subscriptions db ∨
     ∃ e uid tid sid days,
       subscriptions db'
       = subscriptions db ++ [new_subscription e uid tid sid days] ∧
       (gen_random_uuid e ∉ sub_id <$> subscriptions db) ∧
       (randomUUID e ∉ xray_uuid <$> subscriptions db) ∧
       uid ∈ user_id <$> users db ∧
       sid ∈ server_id <$> servers db ∧
       tid ∈ tariff_id <$> tariffs db)) as Hcs.
  { intros e uid tid sid days.
    destruct (createSubscription e uid tid sid days db) as [[r|err] db'] eqn:Hrun;
      simpl.
    - apply createSubscription_Ok_tables in Hrun
        as (Ht & Hs & Hu & Hsub & Hf1 & Hf2 & Hk1 & Hk2 & Hk3).
      split_and!; [done|done| |].
      + exists (users db'), []. rewrite app_nil_r. split_and!; [done|done|by left].
      + right. exists e, uid, tid, sid, (default 30 days). by split_and!.
    - apply createSubscription_Throw in Hrun as ->.
      split_and!; [done|done|apply Hsame|by left]. }
  destruct ev as [e tgId name|e u tid|e uid tid sid days|]; simpl.
  - pose proof (createUser_subscriptions e tgId name db) as Hsubs.
    destruct (createUser_users e tgId name db)
      as (kept & extra & Hus & Hkept & Hextra).
    assert (tariffs (createUser e tgId name db).2 = tariffs db ∧
            servers (createUser e tgId name db).2 = servers db) as [Ht Hs].
    { unfold createUser.
      destruct (filter (λ u, tg_id u = tgId) (users db)); [|done].
      by repeat case_decide. }
    split_and!; [done|done| |by left].
    exists kept, extra. split_and!; [done|done|].
    destruct Hextra as [->|(-> & ? & ?)]; [by left|right].
    by exists e, tgId, name.
  - destruct (buy e u tid db) as [out db'] eqn:Hbuy. simpl.
    apply buy_cases in Hbuy as [->|(plan & sid & _ & _ & _ & _ & Hrun & _)].
    + split_and!; [done|done|apply Hsame|by left].
    + pose proof (Hcs e (user_id u) tid sid None) as Hcs'.
      by rewrite Hrun in Hcs'.
  - apply Hcs.
  - split_and!; [done|done|apply Hsame|by left].
Qed.

(** ** The constraints of the schema along a run *)

Lemma NoDup_snoc_fresh {A} (l : list A) (x : A) :
  NoDup l → x ∉ l → NoDup (l ++ [x]).
Proof.
  intros Hnd Hx. apply NoDup_app. split_and!; [done| |apply NoDup_singleton].
  intros y Hy Hy'. apply list_elem_of_singleton in Hy'. by subst.
Qed.

Lemma run_event_schema_ok ev db : schema_ok db → schema_ok (run_event ev db).
Proof.
  intros [Htpk Hspk Hupk Hutg Hsubpk Hxid Hfku Hfks Hfkt].
  destruct (run_event_tables ev db)
    as (Ht & Hs & (kept & extra & Hus & Hkept & Hextra) & Hsubs).
  apply Forall2_user_step_ids in Hkept as [Hids Htgs].
  assert (∀ x, x ∈ user_id <$> users db → x ∈ user_id <$> users (run_event ev db))
    as Hmono.
  { intros x Hx. rewrite Hus, fmap_app, Hids. apply elem_of_app. by left. }
  assert (NoDup (user_id <$> users (run_event ev db)) ∧
          NoDup (tg_id <$> users (run_event ev db))) as [Hupk' Hutg'].
  { rewrite Hus, !fmap_app, Hids, Htgs.
    destruct Hextra as [->|(e & tgId & name & -> & Hfresh1 & Hfresh2)].
    - by rewrite !app_nil_r.
    - split; by apply NoDup_snoc_fresh. }
  destruct Hsubs as [Hsame|(e & uid & tid & sid & days & Hnew & Hf1 & Hf2 & Hk1 & Hk2 & Hk3)].
  - split; rewrite ?Ht, ?Hs, ?Hsame; try done.
    intros s Hs'. by apply Hmono, Hfku.
  - split; rewrite ?Ht, ?Hs, ?Hnew; try done.
    + rewrite fmap_app. by apply NoDup_snoc_fresh.
    + rewrite fmap_app. by apply NoDup_snoc_fresh.
    + intros s [Hin|Hin%list_elem_of_singleton]%elem_of_app.
      * by apply Hmono, Hfku.
      * subst s. by apply Hmono.
    + intros s [Hin|Hin%list_elem_of_singleton]%elem_of_app.
      * by apply Hfks.
      * by subst s.
    + intros s [Hin|Hin%list_elem_of_singleton]%elem_of_app.
      * by apply Hfkt.
      * by subst s.
Qed.

(** X2. Every constraint of [init.sql] that holds before a run of events
    holds after it: the primary keys, UNIQUE (tg_id), [uq_xray_uuid], and
    the three foreign keys of [subscriptions]. *)
Theorem run_events_schema_ok evs db :
  schema_ok db → schema_ok (run_events evs db).
Proof.
  revert db. induction evs as [|ev evs IH]; intros db Hok; [done|].
  simpl. by apply IH, run_event_schema_ok.
Qed.

Lemma store_start_schema_ok : schema_ok store_start.
Proof.
  split; try (apply (bool_decide_unpack _); by vm_compute).
  all: intros s Hs; simpl in Hs; by apply not_elem_of_nil in Hs.
Qed.

Lemma run_events_schema_ok_witness :
  schema_ok
    (run_events
       [Update an_env 77 (Some "zoe");
        BuyAction an_env (a_user "user-1" 42 (Some 10000)) 1;
        CreateSubscription another_env "user-1" 2 "node-b" None;
        WatcherTick]
       store_start).
Proof. apply run_events_schema_ok, store_start_schema_ok. Defined.

(** ** Balances along a run *)

Lemma run_events_tariffs evs db : tariffs (run_events evs db) = tariffs db.
Proof.
  revert db. induction evs as [|ev evs IH]; intros db; [done|].
  simpl. rewrite IH. by destruct (run_event_tables ev db) as (-> & _).
Qed.

Lemma run_events_servers evs db : servers (run_events evs db) = servers db.
Proof.
  revert db. induction evs as [|ev evs IH]; intros db; [done|].
  simpl. rewrite IH. by destruct (run_event_tables ev db) as (_ & -> & _).
Qed.

Lemma balance_le_refl b : balance_le b b.
Proof. destruct b; simpl; [lia|done]. Qed.

Lemma balance_le_trans b1 b2 b3 :
  balance_le b1 b2 → balance_le b2 b3 → balance_le b1 b3.
Proof. destruct b1, b2, b3; simpl; try done. lia. Qed.

Lemma user_step_balance_le db u u' :
  (∀ t, t ∈ tariffs db → 0 ≤ price t) →
  user_step db u u' → balance_le (balance u') (balance u).
Proof.
  intros Hprice [u0|now name u0|now t b u0 Ht Hb Hle]; simpl.
  - apply balance_le_refl.
  - apply balance_le_refl.
  - rewrite Hb. simpl. specialize (Hprice t Ht). lia.
Qed.

(** A row of [users] after one event, at the place it had before. *)
Lemma run_event_user_kept ev db i u :
  users db !! i = Some u →
  ∃ u', users (run_event ev db) !! i = Some u' ∧ user_step db u u'.
Proof.
  intros Hi.
  destruct (run_event_tables ev db)
    as (_ & _ & (kept & extra & Hus & Hkept & _) & _).
  destruct (Forall2_lookup_l _ _ _ _ _ Hkept Hi) as (u' & Hi' & Hstep).
  exists u'. split; [|done]. rewrite Hus. by apply lookup_app_l_Some.
Qed.

(** X3. Nothing in the bot credits a balance. When no plan has a negative
    price, then after any run of events every row of [users] is still at its
    place, with the [id], [tg_id] and [created_at] it had, and with a balance
    that is no higher than before. *)
Theorem run_events_balance_never_rises evs db i u :
  (∀ t, t ∈ tariffs db → 0 ≤ price t) →
  users db !! i = Some u →
  ∃ u', users (run_events evs db) !! i = Some u' ∧
        user_id u' = user_id u ∧ tg_id u' = tg_id u ∧
        user_created_at u' = user_created_at u ∧
        balance_le (balance u') (balance u).
Proof.
  revert db u. induction evs as [|ev evs IH]; intros db u Hprice Hi.
  - exists u. split_and!; try done. apply balance_le_refl.
  - simpl.
    destruct (run_event_user_kept ev db i u Hi) as (u1 & Hi1 & Hstep).
    destruct (IH (run_event ev db) u1) as (u' & Hi' & Hid & Htg & Hcr & Hle);
      [|done|].
    { destruct (run_event_tables ev db) as (-> & _). done. }
    pose proof (user_step_ids _ _ _ Hstep) as (Hid1 & Htg1 & Hcr1).
    exists u'. split_and!; [done|congruence..|].
    eapply balance_le_trans; [done|]. by apply (user_step_balance_le db).
Qed.

Lemma seed_tariffs_prices t : t ∈ seed_tariffs → 0 < price t.
Proof.
  unfold seed_tariffs. rewrite !elem_of_cons, elem_of_nil.
  intros [->|[->|[->|[->|[]]]]]; simpl; lia.
Qed.

Lemma run_events_balance_never_rises_witness :
  ∃ u', users store_after_two_purchases !! 0%nat = Some u' ∧
        user_id u' = "user-1" ∧ tg_id u' = 42 ∧
        user_created_at u' = 0 ∧
        balance_le (balance u') (Some 10000).
Proof.
  apply (run_events_balance_never_rises
           [BuyAction an_env (a_user "user-1" 42 (Some 10000)) 1;
            BuyAction another_env (a_user "user-1" 42 (Some 7100)) 1]
           store_start 0 (a_user "user-1" 42 (Some 10000))).
  - intros t Ht. apply seed_tariffs_prices in Ht. lia.
  - reflexivity.
Defined.

(** X4. No overdraft. When no balance is negative before a run of events,
    none is negative after it, whatever the prices of the plans. *)
Theorem run_events_no_overdraft evs db :
  (∀ u b, u ∈ users db → balance u = Some b → 0 ≤ b) →
  ∀ u b, u ∈ users (run_events evs db) → balance u = Some b → 0 ≤ b.
Proof.
  revert db. induction evs as [|ev evs IH]; intros db Hnonneg; [done|].
  simpl. apply IH. clear IH. intros u' b' Hu' Hb'.
  destruct (run_event_tables ev db)
    as (_ & _ & (kept & extra & Hus & Hkept & Hextra) & _).
  rewrite Hus in Hu'. apply elem_of_app in Hu' as [Hu'|Hu'].
  - apply list_elem_of_lookup in Hu' as [i Hi].
    destruct (Forall2_lookup_r _ _ _ _ _ Hkept Hi) as (u & Hiu & Hstep).
    apply list_elem_of_lookup_2 in Hiu.
    destruct Hstep as [u0|now name u0|now t b u0 Ht Hb Hle]; simpl in Hb'.
    + by apply (Hnonneg u0).
    + by apply (Hnonneg u0).
    + injection Hb' as <-. lia.
  - destruct Hextra as [->|(e & tgId & name & -> & _)].
    + by apply not_elem_of_nil in Hu'.
    + apply list_elem_of_singleton in Hu' as ->. simpl in Hb'.
      injection Hb' as <-. lia.
Qed.

Lemma run_events_no_overdraft_witness :
  Forall (λ u, ∀ b, balance u = Some b → 0 ≤ b) (users store_after_two_purchases).
Proof.
  apply Forall_forall. intros u Hu b.
  apply (run_events_no_overdraft
           [BuyAction an_env (a_user "user-1" 42 (Some 10000)) 1;
            BuyAction another_env (a_user "user-1" 42 (Some 7100)) 1]
           store_start); [|done].
  intros u0 b0 Hu0 Hb0. simpl in Hu0. apply list_elem_of_singleton in Hu0 as ->.
  simpl in Hb0. injection Hb0 as <-. lia.
Defined.

(** An event registers, leaves the store alone, or commits one
    [createSubscription]. *)
Lemma run_event_cases ev db :
  (∃ e tgId name, run_event ev db = (createUser e tgId name db).2) ∨
  run_event ev db = db ∨
  (∃ e uid tid sid days r,
     createSubscription e uid tid sid days db = (Ok r, run_event ev db)).
Proof.
  destruct ev as [e tgId name|e u tid|e uid tid sid days|]; simpl.
  - left. by exists e, tgId, name.
  - destruct (buy e u tid db) as [out db'] eqn:Hbuy. simpl.
    apply buy_cases in Hbuy as [->|(plan & sid & _ & _ & _ & _ & Hrun & _)].
    + right. by left.
    + right. right. by exists e, (user_id u), tid, sid, None, true.
  - destruct (createSubscription e uid tid sid days db) as [[r|err] db'] eqn:Hrun;
      simpl.
    + right. right. by exists e, uid, tid, sid, days, r.
    + right. left. by apply createSubscription_Throw in Hrun.
  - right. by left.
Qed.

(** A committed [createSubscription] has found a payer: a row of the user
    whose balance covers the price of the plan. *)
Lemma createSubscription_Ok_payer e uid tid sid days db r db' :
  createSubscription e uid tid sid days db = (Ok r, db') →
  ∃ u t b, u ∈ users db ∧ user_id u = uid ∧ t ∈ tariffs db ∧
           tariff_id t = tid ∧ balance u = Some b ∧ price t ≤ b.
Proof.
  intros Hok.
  apply createSubscription_Ok in Hok
    as (p & rows & ids & Hp & Hupd & Hids & _).
  destruct (filter (λ t, tariff_id t = tid) (tariffs db)) as [|plan ps] eqn:Hf;
    [done|].
  assert (plan ∈ filter (λ t, tariff_id t = tid) (tariffs db)) as Hplan
    by (rewrite Hf; left).
  apply list_elem_of_filter in Hplan as [Htid Hplan].
  simpl in Hp. injection Hp as <-.
  destruct (update_debit_rows_Ok _ _ _ _ _ _ Hupd) as [_ ->].
  destruct (filter (λ u, is_Some (debited (price plan) uid u)) (users db))
    as [|buyer l] eqn:Hfu; [done|].
  assert (buyer ∈ filter (λ u, is_Some (debited (price plan) uid u)) (users db))
    as Hin by (rewrite Hfu; left).
  apply list_elem_of_filter in Hin as [[b' Hdeb] Hin].
  apply debited_Some in Hdeb as (Huid & b & Hbal & Hle & _).
  exists buyer, plan, b. by split_and!.
Qed.

(** X5. A store that starts without users and without subscriptions, with
    plans of positive price, never gets a subscription: after any run of
    events the subscriptions table is empty and every registered user has
    balance 0.00. Balances are credited outside the bot or not at all. *)
Theorem fresh_store_never_sells evs db :
  users db = [] →
  subscriptions db = [] →
  (∀ t, t ∈ tariffs db → 0 < price t) →
  subscriptions (run_events evs db) = [] ∧
  ∀ u, u ∈ users (run_events evs db) → balance u = Some 0.
Proof.
  intros Husers Hsubs Hprice.
  assert (∀ u, u ∈ users db → balance u = Some 0) as Hzero
    by (intros u Hu; rewrite Husers in Hu; by apply not_elem_of_nil in Hu).
  clear Husers. revert db Hsubs Hprice Hzero.
  induction evs as [|ev evs IH]; intros db Hsubs Hprice Hzero; [done|].
  simpl. apply IH.
  - destruct (run_event_cases ev db)
      as [(e & tgId & name & ->)|[->|(e & uid & tid & sid & days & r & Hrun)]].
    + by rewrite createUser_subscriptions.
    + done.
    + apply createSubscription_Ok_payer in Hrun
        as (u & t & b & Hu & _ & Ht & _ & Hb & Hle).
      rewrite (Hzero u Hu) in Hb. injection Hb as <-.
      specialize (Hprice t Ht). lia.
  - by destruct (run_event_tables ev db) as (-> & _).
  - intros u' Hu'.
    destruct (run_event_tables ev db)
      as (_ & _ & (kept & extra & Hus & Hkept & Hextra) & _).
    rewrite Hus in Hu'. apply elem_of_app in Hu' as [Hu'|Hu'].
    + apply list_elem_of_lookup in Hu' as [i Hi].
      destruct (Forall2_lookup_r _ _ _ _ _ Hkept Hi) as (u & Hiu & Hstep).
      apply list_elem_of_lookup_2 in Hiu. specialize (Hzero u Hiu).
      destruct Hstep as [u0|now name u0|now t b u0 Ht Hb Hle]; simpl; try done.
      rewrite Hzero in Hb. injection Hb as <-.
      specialize (Hprice t Ht). lia.
    + destruct Hextra as [->|(e & tgId & name & -> & _)].
      * by apply not_elem_of_nil in Hu'.
      * by apply list_elem_of_singleton in Hu' as ->.
Qed.

Lemma fresh_store_never_sells_witness :
  subscriptions
    (run_events
       [Update an_env 42 (Some "ann");
        BuyAction another_env (a_user "user-1" 42 (Some 10000)) 1;
        CreateSubscription another_env
          "0b5e7c1a-9d1f-4c3e-8a77-3f2b6c9d0e11" 1 "node-b" None]
       (with_users [] store_start))
  = [].
Proof.
  apply (fresh_store_never_sells _ (with_users [] store_start)).
  - reflexivity.
  - reflexivity.
  - intros t Ht. by apply seed_tariffs_prices.
Defined.

(** ** The capacity ceiling along purchases *)

Lemma NoDup_fmap_elem_eq {A B} (f : A → B) (l : list A) (x y : A) :
  NoDup (f <$> l) → x ∈ l → y ∈ l → f y = f x → y = x.
Proof.
  intros Hnd Hx Hy Heq. apply list_elem_of_split in Hx as (l1 & l2 & ->).
  pose proof (NoDup_fmap_around f l1 l2 x Hnd) as Hother.
  apply elem_of_app in Hy as [Hy|Hy].
  - exfalso. apply (Hother y); [apply elem_of_app; by left|done].
  - apply elem_of_cons in Hy as [?|Hy]; [done|].
    exfalso. apply (Hother y); [apply elem_of_app; by right|done].
Qed.

Lemma count_active_snoc sid subs row :
  count_active sid (subs ++ [row])
  = count_active sid subs
    + (if decide (sub_server_id row = sid ∧ status row = active) then 1 else 0).
Proof.
  unfold count_active. rewrite filter_app, length_app.
  rewrite filter_cons, filter_nil. case_decide; simpl; lia.
Qed.

Lemma buy_capacity_ok e u tid db :
  NoDup (server_id <$> servers db) →
  capacity_ok db → capacity_ok (buy e u tid db).2.
Proof.
  intros Hpk Hcap.
  destruct (buy e u tid db) as [out db'] eqn:Hbuy. simpl.
  apply buy_cases in Hbuy as [->|(plan & sid & _ & _ & _ & Hsrv & Hrun & _)];
    [done|].
  apply findBestServer_tie_Some in Hsrv as (s0 & Hs0 & Hsid & Hfree).
  apply createSubscription_Ok_tables in Hrun as (_ & Hsrvs & _ & Hsubs & _).
  intros s Hs. rewrite Hsrvs in Hs. rewrite Hsubs, count_active_snoc. simpl.
  case_decide as Hhit.
  - destruct Hhit as [Hhit _].
    assert (s = s0) as -> by (apply (NoDup_fmap_elem_eq server_id (servers db));
                              [done..|congruence]).
    lia.
  - specialize (Hcap s Hs). lia.
Qed.

(** X6. Purchases made through the handler never fill a node beyond its
    [max_users]: when server ids are unique and no node holds more active
    subscriptions than its limit, the same is true after any run of updates,
    purchases and watcher ticks. *)
Theorem chat_events_keep_capacity evs db :
  NoDup (server_id <$> servers db) →
  Forall chat_event evs →
  capacity_ok db →
  capacity_ok (run_events evs db).
Proof.
  revert db. induction evs as [|ev evs IH]; intros db Hpk Hchat Hcap; [done|].
  apply Forall_cons in Hchat as [Hev Hchat]. simpl. apply IH; [|done|].
  - by destruct (run_event_tables ev db) as (_ & -> & _).
  - destruct ev as [e tgId name|e u tid|e uid tid sid days|]; simpl.
    + intros s Hs.
      destruct (run_event_tables (Update e tgId name) db) as (_ & Hsrvs & _).
      simpl in Hsrvs. rewrite Hsrvs in Hs.
      rewrite createUser_subscriptions. by apply Hcap.
    + by apply buy_capacity_ok.
    + done.
    + done.
Qed.

Lemma chat_events_keep_capacity_witness :
  capacity_ok
    (run_events
       [BuyAction an_env (a_user "user-2" 43 (Some 10000)) 1;
        Update an_env 77 None;
        BuyAction another_env (a_user "user-2" 43 (Some 10000)) 2]
       store_full).
Proof.
  apply chat_events_keep_capacity.
  - apply (bool_decide_unpack _). by vm_compute.
  - repeat constructor.
  - intros s Hs. simpl in Hs. apply list_elem_of_singleton in Hs as ->.
    by vm_compute.
Defined.

(** ** [createSubscription] on missing rows and refused inserts *)

(** X7. [createSubscription] for a plan id that is a SMALLINT and is not
    in the tariffs table throws the TypeError of reading [price] of
    [undefined]; for a plan id that is no SMALLINT the first query is
    refused and the error is the store's; for a known plan and a user id, a
    UUID, that is not in the users table the conditional update matches no
    row and the error is "Insufficient balance". In all three cases the
    store is as before. *)
Theorem createSubscription_missing_rows e uid tid sid days db :
  (smallint tid →
   (∀ t, t ∈ tariffs db → tariff_id t ≠ tid) →
   createSubscription e uid tid sid days db
   = (Throw (TypeError "Cannot read properties of undefined (reading 'price')"),
      db)) ∧
  (¬ smallint tid →
   ∃ msg, createSubscription e uid tid sid days db
          = (Throw (DatabaseError msg), db)) ∧
  (∀ t, t ∈ tariffs db → tariff_id t = tid → smallint tid →
        is_uuid uid = true →
        (∀ u, u ∈ users db → user_id u ≠ uid) →
        createSubscription e uid tid sid days db
        = (Throw (Error "Insufficient balance"), db)).
Proof.
  split_and!.
  - intros Hsmall Hnone. unfold_createSubscription. simpl.
    rewrite decide_True by done. simpl.
    replace (filter (λ t, tariff_id t = tid) (tariffs db)) with (@nil tariff);
      [done|].
    symmetry. apply elem_of_nil_inv. intros t Ht.
    apply list_elem_of_filter in Ht as [Hid Ht]. by apply (Hnone t).
  - intros Hbig. unfold_createSubscription. simpl.
    rewrite decide_False by done. simpl. eauto.
  - intros t Ht Htid Hsmall _ Hnone. unfold_createSubscription. simpl.
    rewrite decide_True by done. simpl.
    destruct (filter (λ t, tariff_id t = tid) (tariffs db)) as [|plan ps] eqn:Hf.
    + assert (t ∈ filter (λ t, tariff_id t = tid) (tariffs db)) as Hin
        by (by apply list_elem_of_filter).
      rewrite Hf in Hin. by apply not_elem_of_nil in Hin.
    + simpl. rewrite update_debit_rows_none; [done|].
      intros u Hu. by apply debited_other, Hnone.
Qed.

Lemma createSubscription_missing_rows_witness :
  createSubscription an_env "f47ac10b-58cc-4372-a567-0e02b2c3d479" 1
    (server_id node_d) None store_open
  = (Throw (Error "Insufficient balance"), store_open) ∧
  createSubscription an_env (user_id bob) 9 (server_id node_d) None store_open
  = (Throw (TypeError "Cannot read properties of undefined (reading 'price')"),
     store_open) ∧
  ∃ msg, createSubscription an_env (user_id bob) 40000 (server_id node_d) None
           store_open
         = (Throw (DatabaseError msg), store_open).
Proof.
  split_and!.
  - destruct (createSubscription_missing_rows
                an_env "f47ac10b-58cc-4372-a567-0e02b2c3d479" 1
                (server_id node_d) None store_open) as (_ & _ & Huser).
    apply (Huser {| tariff_id := 1; tariff_name := "Basic"; price := 2900;
                    speed_limit_mbps := 1; xray_level := 1 |}).
    + unfold store_open, seed_tariffs. simpl. left.
    + reflexivity.
    + unfold smallint. lia.
    + by vm_compute.
    + refine (proj1 (Forall_forall (λ u, _) _) _).
      apply (bool_decide_unpack _). by vm_compute.
  - destruct (createSubscription_missing_rows
                an_env (user_id bob) 9 (server_id node_d) None store_open)
      as (Hplan & _ & _).
    apply Hplan; [unfold smallint; lia|].
    refine (proj1 (Forall_forall (λ t, _) _) _).
    apply (bool_decide_unpack _). by vm_compute.
  - destruct (createSubscription_missing_rows
                an_env (user_id bob) 40000 (server_id node_d) None store_open)
      as (_ & Hbig & _).
    apply Hbig. unfold smallint. lia.
Defined.

(** X8. When the INSERT of step 3 is refused (the server id is not in the
    servers table, the generated credential id is already taken, or the
    generated row id is), [createSubscription] throws and the store is as
    before: the debit of step 2 is undone and the user is not charged. *)
Theorem createSubscription_refused_insert e uid tid sid days db :
  sid ∉ server_id <$> servers db ∨
  randomUUID e ∈ xray_uuid <$> subscriptions db ∨
  gen_random_uuid e ∈ sub_id <$> subscriptions db →
  ∃ err, createSubscription e uid tid sid days db = (Throw err, db).
Proof.
  intros Hrefused.
  destruct (createSubscription e uid tid sid days db) as [[r|err] db'] eqn:Hrun.
  - apply createSubscription_Ok in Hrun
      as (_ & _ & _ & _ & _ & _ & Hxid & Hsid & Hsrv & _).
    by destruct Hrefused as [?|[?|?]].
  - exists err. by apply createSubscription_Throw in Hrun as ->.
Qed.

Lemma createSubscription_refused_insert_witness :
  ∃ err,
    createSubscription an_env "user-1" 1 "node-unknown" None store_start
    = (Throw err, store_start).
Proof.
  apply createSubscription_refused_insert. left.
  apply (bool_decide_unpack _). by vm_compute.
Defined.

(** ** The active subscription and the profile *)

Lemma elem_of_getActiveSub_rows now uid db r :
  r ∈ getActiveSub_rows now uid db ↔
  ∃ s t srv,
    s ∈ subscriptions db ∧ t ∈ tariffs db ∧ srv ∈ servers db ∧
    sub_tariff_id s = tariff_id t ∧ sub_server_id s = server_id srv ∧
    sub_user_id s = uid ∧ status s = active ∧ now < expire_date s ∧
    r = joined_row s t srv.
Proof.
  unfold getActiveSub_rows. rewrite list_elem_of_bind. split.
  - intros (s & Hr & Hs).
    apply list_elem_of_bind in Hr as (t & Hr & Ht).
    apply list_elem_of_filter in Ht as [Htid Ht].
    apply list_elem_of_bind in Hr as (srv & Hr & Hsrv).
    apply list_elem_of_filter in Hsrv as [Hsid Hsrv].
    case_decide as Hcond; [|by apply not_elem_of_nil in Hr].
    apply list_elem_of_singleton in Hr as ->.
    destruct Hcond as (? & ? & ?). exists s, t, srv. by split_and!.
  - intros (s & t & srv & Hs & Ht & Hsrv & Htid & Hsid & Hu & Hact & Hexp & ->).
    exists s. split; [|done].
    apply list_elem_of_bind. exists t. split; [|by apply list_elem_of_filter].
    apply list_elem_of_bind. exists srv. split; [|by apply list_elem_of_filter].
    rewrite decide_True by done. left.
Qed.

Lemma getActiveSub_is_result now uid db :
  getActiveSub_result now uid db (getActiveSub now uid db).
Proof.
  unfold getActiveSub_result, getActiveSub.
  destruct (getActiveSub_rows now uid db) as [|r l]; simpl; [done|left].
Qed.

(** X9. Whatever row the store answers [getActiveSub] with, it joins a
    subscription of that user that is [active] and expires strictly after
    the time of the query with the name of its plan and the address data of
    its server. Under the foreign keys of [subscriptions] the answer is
    empty exactly when the user has no such subscription: a subscription
    past its expiry date is not shown although its status is still
    [active]. *)
Theorem getActiveSub_shows_unexpired_only now uid db :
  (∀ r, getActiveSub_result now uid db (Some r) →
     as_sub r ∈ subscriptions db ∧
     sub_user_id (as_sub r) = uid ∧ status (as_sub r) = active ∧
     now < expire_date (as_sub r) ∧
     (∃ t, t ∈ tariffs db ∧ tariff_id t = sub_tariff_id (as_sub r) ∧
           plan_name r = tariff_name t) ∧
     (∃ srv, srv ∈ servers db ∧ server_id srv = sub_server_id (as_sub r) ∧
             as_domain r = domain srv ∧ as_ip_address r = ip_address srv ∧
             as_public_key r = public_key srv ∧ as_short_ids r = short_ids srv)) ∧
  ((∀ s, s ∈ subscriptions db →
         sub_tariff_id s ∈ tariff_id <$> tariffs db ∧
         sub_server_id s ∈ server_id <$> servers db) →
   (getActiveSub now uid db = None ↔
    ∀ s, s ∈ subscriptions db →
         sub_user_id s = uid → status s = active → expire_date s ≤ now)) ∧
  getActiveSub_result now uid db (getActiveSub now uid db).
Proof.
  split_and!.
  - intros r Hr. simpl in Hr.
    apply elem_of_getActiveSub_rows in Hr
      as (s & t & srv & Hs & Ht & Hsrv & Htid & Hsid & Hu & Hact & Hexp & ->).
    simpl. split_and!; try done.
    + by exists t.
    + by exists srv.
  - intros Hfk. unfold getActiveSub. split.
    + intros Hnone s Hs Hu Hact.
      destruct (decide (expire_date s ≤ now)) as [|Hlive]; [done|].
      destruct (Hfk s Hs) as [(t & Htid & Ht)%list_elem_of_fmap
                                (srv & Hsid & Hsrv)%list_elem_of_fmap].
      assert (joined_row s t srv ∈ getActiveSub_rows now uid db) as Hin.
      { apply elem_of_getActiveSub_rows. exists s, t, srv.
        split_and!; try done. lia. }
      destruct (getActiveSub_rows now uid db); [|done].
      by apply not_elem_of_nil in Hin.
    + intros Hnone.
      destruct (getActiveSub_rows now uid db) as [|r l] eqn:Hrows; [done|].
      assert (r ∈ getActiveSub_rows now uid db) as Hin by (rewrite Hrows; left).
      apply elem_of_getActiveSub_rows in Hin
        as (s & t & srv & Hs & _ & _ & _ & _ & Hu & Hact & Hexp & _).
      specialize (Hnone s Hs Hu Hact). lia.
  - apply getActiveSub_is_result.
Qed.

Lemma getActiveSub_shows_unexpired_only_witness :
  getActiveSub 2592000002000 "user-1" store_after_two_purchases = None.
Proof.
  destruct (getActiveSub_shows_unexpired_only
              2592000002000 "user-1" store_after_two_purchases)
    as (_ & Hiff & _).
  apply Hiff.
  - refine (proj1 (Forall_forall (λ s, _) _) _). apply (bool_decide_unpack _). by vm_compute.
  - refine (proj1 (Forall_forall (λ s, _) _) _). apply (bool_decide_unpack _). by vm_compute.
Defined.




(** ** The plan menu and the routing of its buttons *)

Lemma pretty_N_char_digit d :
  (d < 10)%N →
  is_digit (pretty_N_char d) = true ∧
  Z.of_N (Ascii.N_of_ascii (pretty_N_char d)) - 48 = Z.of_N d.
Proof.
  intros Hd.
  assert (d = 0 ∨ d = 1 ∨ d = 2 ∨ d = 3 ∨ d = 4 ∨ d = 5 ∨ d = 6 ∨ d = 7
          ∨ d = 8 ∨ d = 9)%N as Hcases by lia.
  repeat (destruct Hcases as [->|Hcases]; [by vm_compute|]).
  subst d. by vm_compute.
Qed.

Lemma all_digits_pretty_N_go x s :
  all_digits (pretty_N_go x s) = all_digits s.
Proof.
  revert s. induction (N.lt_wf_0 x) as [x _ IH]; intros s.
  assert (x = 0 ∨ 0 < x)%N as [->|Hpos] by lia; [by rewrite pretty_N_go_0|].
  rewrite pretty_N_go_step by done. rewrite IH by (by apply N.div_lt).
  simpl. destruct (pretty_N_char_digit (x `mod` 10)) as [-> _]; [|done].
  by apply N.mod_lt.
Qed.

Lemma decimal_value_pretty_N_go x s :
  decimal_value 0 (pretty_N_go x s) = decimal_value (Z.of_N x) s.
Proof.
  revert s. induction (N.lt_wf_0 x) as [x _ IH]; intros s.
  assert (x = 0 ∨ 0 < x)%N as [->|Hpos] by lia; [by rewrite pretty_N_go_0|].
  rewrite pretty_N_go_step by done. rewrite IH by (by apply N.div_lt).
  simpl. destruct (pretty_N_char_digit (x `mod` 10)) as [_ ->];
    [by apply N.mod_lt|].
  f_equal. pose proof (N.div_mod x 10). lia.
Qed.

Lemma pretty_N_go_nonempty x s : s ≠ "" → pretty_N_go x s ≠ "".
Proof.
  revert s. induction (N.lt_wf_0 x) as [x _ IH]; intros s Hs.
  assert (x = 0 ∨ 0 < x)%N as [->|Hpos] by lia; [by rewrite pretty_N_go_0|].
  rewrite pretty_N_go_step by done. apply IH; [by apply N.div_lt|done].
Qed.

(** Printing a non-negative number gives digits that read back as it. *)
Lemma pretty_Z_digits z :
  0 ≤ z →
  all_digits (pretty z) = true ∧ pretty z ≠ "" ∧ decimal_value 0 (pretty z) = z.
Proof.
  intros Hz. destruct z as [|p|p]; [by vm_compute| |lia].
  unfold pretty, pretty_Z, pretty, pretty_positive, pretty, pretty_N.
  rewrite decide_False by done. split_and!.
  - by rewrite all_digits_pretty_N_go.
  - assert (0 < N.pos p)%N as Hpos by lia.
    rewrite pretty_N_go_step by done. by apply pretty_N_go_nonempty.
  - by rewrite decimal_value_pretty_N_go.
Qed.

Lemma match_buy_pretty z :
  match_buy ("buy_" +:+ pretty z)
  = if decide (0 ≤ z) then Some (pretty z) else None.
Proof.
  unfold match_buy.
  assert (strip_prefix "buy_" ("buy_" +:+ pretty z) = Some (pretty z)) as ->
    by reflexivity.
  case_decide as Hz.
  - destruct (pretty_Z_digits z Hz) as (-> & Hne & _). simpl.
    by rewrite bool_decide_eq_false_2.
  - destruct z as [|p|p]; [lia..|]. done.
Qed.

Lemma route_buy_data t :
  route (btn_data (tariff_button t))
  = if decide (0 ≤ tariff_id t)
    then Some (BuyPlan (decimal_value 0 (pretty (tariff_id t)))) else None.
Proof.
  change (btn_data (tariff_button t)) with ("buy_" +:+ pretty (tariff_id t)).
  unfold route.
  rewrite (decide_False (P := _ = "menu_profile")) by (simpl; discriminate).
  rewrite (decide_False (P := _ = "menu_tariffs")) by (simpl; discriminate).
  rewrite match_buy_pretty. case_decide; [done|].
  by rewrite decide_False by (simpl; discriminate).
Qed.

(** X11. The plan menu has one button per plan, in order of non-decreasing
    price, and then the back button, and the handler leaves the store as it
    is. The callback data of the button of a plan with a non-negative id is
    matched by the purchase pattern and read back as that id; the data of a
    plan with a negative id matches no handler, and neither does the data of
    the back button. *)
Theorem menu_tariffs_buttons_route db :
  (menu_tariffs db).2 = db ∧
  (∃ plans,
     (menu_tariffs db).1 = (tariff_button <$> plans) ++ [back_button] ∧
     plans ≡ₚ tariffs db ∧ StronglySorted (key_le price) plans) ∧
  (∀ t, 0 ≤ tariff_id t →
        route (btn_data (tariff_button t)) = Some (BuyPlan (tariff_id t))) ∧
  (∀ t, tariff_id t < 0 → route (btn_data (tariff_button t)) = None) ∧
  route (btn_data back_button) = None.
Proof.
  split_and!.
  - done.
  - exists (getTariffs db). split; [done|]. apply order_by_ordered.
  - intros t Hid. rewrite route_buy_data.
    rewrite decide_True by done.
    by destruct (pretty_Z_digits _ Hid) as (_ & _ & ->).
  - intros t Hid. rewrite route_buy_data. by rewrite decide_False by lia.
  - by vm_compute.
Qed.

Lemma menu_tariffs_buttons_route_witness :
  route (btn_data (tariff_button
           {| tariff_id := 3; tariff_name := "Pro"; price := 27900;
              speed_limit_mbps := 25; xray_level := 3 |}))
  = Some (BuyPlan 3).
Proof.
  destruct (menu_tariffs_buttons_route store_start) as (_ & _ & Hpos & _).
  apply (Hpos {| tariff_id := 3; tariff_name := "Pro"; price := 27900;
                 speed_limit_mbps := 25; xray_level := 3 |}).
  simpl. lia.
Defined.

(** ** The load column of the view *)

(** X12. On a server with a positive [max_users] that holds no more active
    subscriptions than that, [load_percentage] lies between 0.0 and 100.0;
    it reads 0.0 exactly when fewer than one slot in two thousand is taken
    and 100.0 exactly when fewer than one slot in two thousand is free; and
    of two servers with the same [max_users] the one with more active
    subscriptions has the load that is not lower. *)
Theorem load_percentage_range r r' :
  0 < vl_max_users r →
  0 ≤ current_users r ≤ vl_max_users r →
  0 ≤ load_percentage r ≤ 1000 ∧
  (load_percentage r = 0 ↔ 2000 * current_users r < vl_max_users r) ∧
  (load_percentage r = 1000
   ↔ 2000 * (vl_max_users r - current_users r) ≤ vl_max_users r) ∧
  (vl_max_users r' = vl_max_users r → current_users r ≤ current_users r' →
   load_percentage r ≤ load_percentage r').
Proof.
  intros Hm Hc. unfold load_percentage.
  pose proof (load_percentage_nearest_tenth r Hm) as Hnear.
  unfold load_percentage in Hnear.
  set (q := (2000 * current_users r + vl_max_users r) `div` (2 * vl_max_users r))
    in *.
  split; [|split; [|split]].
  - nia.
  - split; intros H; nia.
  - split; intros H; nia.
  - intros -> Hle. apply Z.div_le_mono; lia.
Qed.

Lemma load_percentage_range_witness :
  load_percentage (view_row (subscriptions store_tie) node_1) = 0.
Proof.
  destruct (load_percentage_range (view_row (subscriptions store_tie) node_1)
              (view_row (subscriptions store_tie) node_1))
    as (_ & Hzero & _).
  - by vm_compute.
  - by vm_compute.
  - apply Hzero. by vm_compute.
Defined.

(** ** The registration bot *)

Lemma elem_of_getUserStatus_rows tgId db row :
  row ∈ Agent.getUserStatus_rows tgId db →
  ∃ u, u ∈ Agent.users db ∧ Agent.tg_id u = tgId ∧
       Agent.row_uuid row = Agent.uuid u ∧
       (Agent.row_status row = None ↔
        ∀ s, s ∈ Agent.subscriptions db → Agent.user_id s ≠ Agent.id u) ∧
       (∀ st, Agent.row_status row = Some st →
          ∃ s, s ∈ Agent.subscriptions db ∧ Agent.user_id s = Agent.id u ∧
               Agent.sub_status s = st ∧
               Agent.row_expire_date row = Some (Agent.expire_date s)).
Proof.
  unfold Agent.getUserStatus_rows. intros (u & Hrow & Hu)%list_elem_of_bind.
  apply list_elem_of_filter in Hu as [Htg Hu].
  exists u. split; [done|]. split; [done|].
  destruct (filter (λ s, Agent.user_id s = Agent.id u) (Agent.subscriptions db))
    as [|s0 ss] eqn:Hf.
  - apply list_elem_of_singleton in Hrow as ->. simpl. split_and!; [done| |done].
    split; [|done]. intros _ s Hs Heq.
    assert (s ∈ filter (λ s, Agent.user_id s = Agent.id u) (Agent.subscriptions db))
      as Hin by (by apply list_elem_of_filter).
    rewrite Hf in Hin. by apply not_elem_of_nil in Hin.
  - apply list_elem_of_fmap in Hrow as (s & -> & Hs). rewrite <- Hf in Hs.
    apply list_elem_of_filter in Hs as [Hsu Hs]. simpl. split_and!; [done| |].
    + split; [done|]. intros Hnone. by destruct (Hnone s Hs).
    + intros st [= <-]. by exists s.
Qed.

(** X13. The status query answers null exactly when no user has the
    [tg_id]. Otherwise its row carries the [uuid] of a user with that
    [tg_id]; the status in it is missing exactly when that user has no
    subscription (the join keeps such users), and a status that is there is
    the status of a subscription of that user, with its expiry date. *)
Theorem getUserStatus_registered tgId db :
  (Agent.getUserStatus tgId db = None ↔
   ∀ u, u ∈ Agent.users db → Agent.tg_id u ≠ tgId) ∧
  (∀ row, Agent.getUserStatus tgId db = Some row →
     ∃ u, u ∈ Agent.users db ∧ Agent.tg_id u = tgId ∧
          Agent.row_uuid row = Agent.uuid u ∧
          (Agent.row_status row = None ↔
           ∀ s, s ∈ Agent.subscriptions db → Agent.user_id s ≠ Agent.id u) ∧
          (∀ st, Agent.row_status row = Some st →
             ∃ s, s ∈ Agent.subscriptions db ∧ Agent.user_id s = Agent.id u ∧
                  Agent.sub_status s = st ∧
                  Agent.row_expire_date row = Some (Agent.expire_date s))).
Proof.
  split.
  - unfold Agent.getUserStatus. split.
    + intros Hnone u Hu Htg.
      assert (∃ row, row ∈ Agent.getUserStatus_rows tgId db) as [row Hrow].
      { unfold Agent.getUserStatus_rows.
        destruct (filter (λ s, Agent.user_id s = Agent.id u)
                    (Agent.subscriptions db)) as [|s0 ss] eqn:Hf.
        - eexists. apply list_elem_of_bind. exists u.
          split; [|by apply list_elem_of_filter]. rewrite Hf. left.
        - eexists. apply list_elem_of_bind. exists u.
          split; [|by apply list_elem_of_filter]. rewrite Hf.
          rewrite fmap_cons. left. }
      destruct (Agent.getUserStatus_rows tgId db); [|done].
      by apply not_elem_of_nil in Hrow.
    + intros Hnone.
      destruct (Agent.getUserStatus_rows tgId db) as [|row l] eqn:Hrows; [done|].
      assert (row ∈ Agent.getUserStatus_rows tgId db) as Hrow
        by (rewrite Hrows; left).
      apply elem_of_getUserStatus_rows in Hrow as (u & Hu & Htg & _).
      by destruct (Hnone u Hu).
  - intros row Hrow. apply elem_of_getUserStatus_rows.
    by apply head_Some_elem_of.
Qed.

Lemma getUserStatus_registered_witness :
  ∃ u, u ∈ Agent.users an_agent_store ∧ Agent.tg_id u = 43 ∧
       Agent.uuid u = "c4a1f3e2-8d57-4b90-a6e1-2f9b0d3c5a68".
Proof.
  destruct (getUserStatus_registered 43 an_agent_store) as [_ Hsome].
  destruct (Hsome {| Agent.row_uuid := "c4a1f3e2-8d57-4b90-a6e1-2f9b0d3c5a68";
                     Agent.row_expire_date := Some 5000;
                     Agent.row_status := Some Agent.active |})
    as (u & Hu & Htg & Huuid & _).
  - by vm_compute.
  - exists u. simpl in Huuid. by split_and!.
Defined.



(** ** When a purchase succeeds *)

(** X15. A purchase succeeds when the plan exists, the user's row holds at
    least its price [b >= price], some server has a free slot, the expiry
    is a timestamp of the store, the generated ids are not taken and
    Telegram accepts the reply: the handler replies with the plan's name;
    the user's row then holds the balance [b - price], its other columns
    but [updated_at] and the other users' rows being as before; and the
    subscriptions are those of before followed by one row, [active], for
    thirty days, on a server that the selection query admits. (Plan and
    user ids are unique, the plan id is a SMALLINT and the new balance fits
    NUMERIC(10, 2).) *)
Theorem buy_succeeds e u tid db plan b :
  NoDup (tariff_id <$> tariffs db) →
  NoDup (user_id <$> users db) →
  plan ∈ tariffs db → tariff_id plan = tid → smallint tid →
  u ∈ users db → balance u = Some b → price plan ≤ b →
  numeric_10_2 (b - price plan) →
  (∃ s, s ∈ servers db ∧
        count_active (server_id s) (subscriptions db) < max_users s) →
  timestamptz_range (env_now e + 30 * microseconds_per_day) →
  gen_random_uuid e ∉ sub_id <$> subscriptions db →
  randomUUID e ∉ xray_uuid <$> subscriptions db →
  env_reply e (SuccessReply (tariff_name plan)) = None →
  ∃ r l1 l2 u' row db',
    findBestServer_result db (Some r) ∧
    buy e u tid db = (Replied (SuccessReply (tariff_name plan)), db') ∧
    users db = l1 ++ u :: l2 ∧
    users db' = l1 ++ u' :: l2 ∧
    balance u' = Some (b - price plan) ∧
    user_id u' = user_id u ∧ tg_id u' = tg_id u ∧
    username u' = username u ∧ full_name u' = full_name u ∧
    language u' = language u ∧ user_created_at u' = user_created_at u ∧
    user_updated_at u' = env_now e ∧
    subscriptions db' = subscriptions db ++ [row] ∧
    status row = active ∧ sub_user_id row = user_id u ∧
    sub_tariff_id row = tid ∧ sub_server_id row = vl_id r ∧
    xray_uuid row = randomUUID e ∧
    expire_date row = env_now e + 30 * microseconds_per_day ∧
    tariffs db' = tariffs db ∧ servers db' = servers db.
Proof.
  intros Htpk Hupk Hplan <- Hsmall Hu Hb Hle Hfit Hfree Hts Hfresh1 Hfresh2
    Hreply.
  apply list_elem_of_split in Hu as (l1 & l2 & Hsplit).
  rewrite Hsplit in Hupk.
  pose proof (NoDup_fmap_around user_id l1 l2 u Hupk) as Hother.
  assert (∀ y, y ∈ l1 → user_id y ≠ user_id u) as H1
    by (intros y Hy; apply Hother, elem_of_app; by left).
  assert (∀ y, y ∈ l2 → user_id y ≠ user_id u) as H2
    by (intros y Hy; apply Hother, elem_of_app; by right).
  assert (update_debit_rows (env_now e) (price plan) (user_id u) (users db)
          = Ok (l1 ++ set_balance (env_now e) (b - price plan) u :: l2,
                [user_id u])) as Hupd.
  { rewrite Hsplit, (update_debit_rows_app_other _ _ _ l1 _ H1). simpl.
    rewrite update_debit_rows_none by (intros y Hy; by apply debited_other, H2).
    assert (debited (price plan) (user_id u) u = Some (b - price plan)) as ->.
    { apply debited_Some. split; [done|]. by exists b. }
    by rewrite decide_True by done. }
  destruct (first_by (env_tie e) (free_rows db)) as [r|] eqn:Hrow.
  2:{ apply first_by_None in Hrow.
      pose proof (proj1 (free_rows_nil db) Hrow) as Hfull.
      destruct Hfree as (s & Hs & Hlt). specialize (Hfull s Hs). lia. }
  pose proof (first_by_result (env_tie e) db) as Hres. rewrite Hrow in Hres.
  assert (findBestServer_tie (env_tie e) db = Some (vl_id r)) as Hsrv
    by (unfold findBestServer_tie; by rewrite Hrow).
  apply findBestServer_tie_Some in Hsrv as Hserver.
  destruct Hserver as (s & Hs & Hsid & _).
  assert (createSubscription e (user_id u) (tariff_id plan) (vl_id r) None db
          = (Ok true,
             with_subscriptions
               (subscriptions db
                ++ [new_subscription e (user_id u) (tariff_id plan) (vl_id r) 30])
               (with_users
                  (l1 ++ set_balance (env_now e) (b - price plan) u :: l2) db)))
    as Hcs.
  { unfold_createSubscription. simpl.
    rewrite decide_True by done. simpl.
    rewrite (filter_unique_key tariff_id _ _ Htpk Hplan). simpl.
    rewrite Hupd. simpl.
    rewrite (decide_True (P := timestamptz_range _)) by done. simpl.
    rewrite (decide_False (P := gen_random_uuid e ∈ _)) by done.
    rewrite (decide_False (P := randomUUID e ∈ _)) by done.
    rewrite (decide_True (P := user_id u ∈ _)).
    2:{ rewrite fmap_app, fmap_cons. apply elem_of_app. right. left. }
    rewrite (decide_True (P := vl_id r ∈ _)).
    2:{ rewrite <- Hsid. by apply list_elem_of_fmap_2. }
    rewrite (decide_True (P := tariff_id plan ∈ _)).
    2:{ by apply list_elem_of_fmap_2. }
    done. }
  eexists r, l1, l2, (set_balance (env_now e) (b - price plan) u),
    (new_subscription e (user_id u) (tariff_id plan) (vl_id r) 30), _.
  split; [done|]. split.
  - unfold buy. rewrite (getTariffs_find db plan Htpk Hplan).
    assert (balance_below (balance u) (price plan) = false) as ->.
    { rewrite Hb. simpl. apply bool_decide_eq_false_2. lia. }
    by rewrite Hsrv, Hcs, Hreply.
  - by split_and!.
Qed.

Lemma buy_succeeds_witness :
  ∃ r l1 l2 u' row db',
    findBestServer_result store_open (Some r) ∧
    buy an_env bob 1 store_open = (Replied (SuccessReply "Basic"), db') ∧
    users store_open = l1 ++ bob :: l2 ∧
    users db' = l1 ++ u' :: l2 ∧
    balance u' = Some (10000 - 2900) ∧
    user_id u' = user_id bob ∧ tg_id u' = tg_id bob ∧
    username u' = username bob ∧ full_name u' = full_name bob ∧
    language u' = language bob ∧ user_created_at u' = user_created_at bob ∧
    user_updated_at u' = env_now an_env ∧
    subscriptions db' = subscriptions store_open ++ [row] ∧
    status row = active ∧ sub_user_id row = user_id bob ∧
    sub_tariff_id row = 1 ∧ sub_server_id row = vl_id r ∧
    xray_uuid row = randomUUID an_env ∧
    expire_date row = env_now an_env + 30 * microseconds_per_day ∧
    tariffs db' = tariffs store_open ∧ servers db' = servers store_open.
Proof.
  apply (buy_succeeds an_env bob 1 store_open
           {| tariff_id := 1; tariff_name := "Basic"; price := 2900;
              speed_limit_mbps := 1; xray_level := 1 |} 10000).
  - apply (bool_decide_unpack _). by vm_compute.
  - apply (bool_decide_unpack _). by vm_compute.
  - unfold store_open, seed_tariffs. simpl. left.
  - reflexivity.
  - unfold smallint. lia.
  - unfold store_open. simpl. right. left.
  - reflexivity.
  - simpl. lia.
  - unfold numeric_10_2. simpl. lia.
  - exists node_d. split; [left|by vm_compute].
  - by vm_compute.
  - apply (bool_decide_unpack _). by vm_compute.
  - apply (bool_decide_unpack _). by vm_compute.
  - reflexivity.
Defined.

(** ** The view accounts for the active subscriptions *)

Lemma sum_Z_cons x l : sum_Z (x :: l) = x + sum_Z l.
Proof. done. Qed.

Lemma sum_Z_plus {A} (f g : A → Z) (l : list A) :
  sum_Z ((λ x, f x + g x) <$> l) = sum_Z (f <$> l) + sum_Z (g <$> l).
Proof.
  induction l as [|x l IH]; [done|].
  rewrite !fmap_cons, !sum_Z_cons. lia.
Qed.

Lemma sum_Z_indicator (x : string) (srvs : list server) :
  NoDup (server_id <$> srvs) →
  sum_Z ((λ s, if decide (x = server_id s) then 1 else 0) <$> srvs)
  = if decide (x ∈ server_id <$> srvs) then 1 else 0.
Proof.
  induction srvs as [|s srvs IH]; intros Hnd; [done|].
  rewrite fmap_cons in Hnd. apply NoDup_cons in Hnd as [Hnotin Hnd].
  rewrite !fmap_cons, sum_Z_cons.
  rewrite (IH Hnd). destruct (decide (x = server_id s)) as [->|Hne].
  - rewrite (decide_False (P := server_id s ∈ server_id <$> srvs)) by done.
    rewrite decide_True by left. done.
  - destruct (decide (x ∈ server_id <$> srvs)) as [Hin|Hout].
    + rewrite decide_True by (by right). done.
    + rewrite decide_False; [done|].
      intros [?|?]%elem_of_cons; done.
Qed.

Lemma count_active_cons sid sub subs :
  count_active sid (sub :: subs)
  = (if decide (sub_server_id sub = sid ∧ status sub = active) then 1 else 0)
    + count_active sid subs.
Proof.
  unfold count_active. rewrite filter_cons. case_decide; simpl; lia.
Qed.

Lemma sum_count_active srvs subs :
  NoDup (server_id <$> srvs) →
  sum_Z ((λ s, count_active (server_id s) subs) <$> srvs)
  = Z.of_nat (length (filter (λ sub, status sub = active ∧
                                     sub_server_id sub ∈ server_id <$> srvs) subs)).
Proof.
  intros Hnd. induction subs as [|sub subs IH].
  - rewrite filter_nil. simpl. clear Hnd.
    induction srvs as [|s srvs IHs]; [done|].
    rewrite fmap_cons, sum_Z_cons, IHs. done.
  - rewrite (list_fmap_ext _
      (λ s, (if decide (sub_server_id sub = server_id s) then
               if decide (status sub = active) then 1 else 0 else 0)
            + count_active (server_id s) subs)).
    2:{ intros i s _. rewrite count_active_cons.
        repeat case_decide; try done; tauto. }
    rewrite sum_Z_plus, IH. rewrite filter_cons.
    destruct (decide (status sub = active)) as [Hact|Hact].
    + rewrite (sum_Z_indicator (sub_server_id sub) srvs Hnd).
      destruct (decide (sub_server_id sub ∈ server_id <$> srvs)).
      * rewrite decide_True by done. simpl. lia.
      * rewrite decide_False by (by intros [? ?]). lia.
    + rewrite decide_False by (by intros [? ?]).
      replace (sum_Z ((λ s, if decide (sub_server_id sub = server_id s)
                            then 0 else 0) <$> srvs)) with 0; [lia|].
      clear. induction srvs as [|s srvs IHs]; [done|].
      rewrite fmap_cons, sum_Z_cons. case_decide; lia.
Qed.

Lemma filter_and_length {A} (P Q : A → Prop)
    `{!∀ x, Decision (P x), !∀ x, Decision (Q x)} (l : list A) :
  (length (filter (λ x, P x ∧ Q x) l) ≤ length (filter P l))%nat.
Proof.
  induction l as [|x l IH]; [done|].
  rewrite !filter_cons. repeat case_decide; simpl; try lia; tauto.
Qed.

Lemma filter_and_all {A} (P Q : A → Prop)
    `{!∀ x, Decision (P x), !∀ x, Decision (Q x)} (l : list A) :
  (∀ x, x ∈ l → Q x) → filter (λ x, P x ∧ Q x) l = filter P l.
Proof.
  induction l as [|x l IH]; intros Hall; [done|].
  rewrite !filter_cons.
  rewrite IH by (intros y Hy; apply Hall; by right).
  assert (Q x) by (apply Hall; left).
  repeat case_decide; try done; tauto.
Qed.

(** X16. When server ids are unique, the column [current_users] of the view
    sums to the number of [active] subscriptions whose server is in the
    servers table; under the foreign key of [server_id] that is the number
    of all [active] subscriptions: the view counts each of them once. *)
Theorem view_counts_each_active_subscription_once db :
  NoDup (server_id <$> servers db) →
  total_current_users db ≤ Z.of_nat (length (active_subscriptions db)) ∧
  ((∀ s, s ∈ subscriptions db → sub_server_id s ∈ server_id <$> servers db) →
   total_current_users db = Z.of_nat (length (active_subscriptions db))).
Proof.
  intros Hnd.
  assert (total_current_users db
          = Z.of_nat (length (filter (λ sub, status sub = active ∧
               sub_server_id sub ∈ server_id <$> servers db) (subscriptions db))))
    as Htotal.
  { unfold total_current_users, view_server_load.
    rewrite <- list_fmap_compose. by rewrite <- sum_count_active. }
  rewrite Htotal. unfold active_subscriptions. split.
  - apply inj_le, filter_and_length.
  - intros Hfk. f_equal. f_equal. by apply filter_and_all.
Qed.

Lemma view_counts_each_active_subscription_once_witness :
  total_current_users store_after_two_purchases
  = Z.of_nat (length (active_subscriptions store_after_two_purchases)).
Proof.
  destruct (view_counts_each_active_subscription_once store_after_two_purchases)
    as [_ Heq].
  - apply (bool_decide_unpack _). by vm_compute.
  - apply Heq.
    refine (proj1 (Forall_forall (λ s, _) _) _).
    apply (bool_decide_unpack _). by vm_compute.
Defined.

(** ** Subscriptions are only ever added *)

Lemma count_active_app sid subs more :
  count_active sid (subs ++ more)
  = count_active sid subs + count_active sid more.
Proof. unfold count_active. rewrite filter_app, length_app. lia. Qed.

Lemma run_events_subscriptions_prefix evs db :
  subscriptions db `prefix_of` subscriptions (run_events evs db).
Proof.
  revert db. induction evs as [|ev evs IH]; intros db; [done|].
  simpl. etrans; [|apply IH].
  destruct (run_event_tables ev db) as (_ & _ & _ & [->|Hnew]); [done|].
  destruct Hnew as (e & uid & tid & sid & days & -> & _).
  by apply prefix_app_r.
Qed.

(** X17. No event changes or deletes a subscription row: after any run of
    events the subscriptions table starts with the rows it had, so the
    number of active subscriptions of a node never goes down, and (server
    ids being unique) a node that has reached its [max_users] is never
    returned by [findBestServer] again. *)
Theorem run_events_subscriptions_append_only evs db :
  subscriptions db `prefix_of` subscriptions (run_events evs db) ∧
  (∀ sid, count_active sid (subscriptions db)
          ≤ count_active sid (subscriptions (run_events evs db))) ∧
  (NoDup (server_id <$> servers db) →
   ∀ s, s ∈ servers db →
        max_users s ≤ count_active (server_id s) (subscriptions db) →
        findBestServer (run_events evs db) ≠ Some (server_id s)).
Proof.
  pose proof (run_events_subscriptions_prefix evs db) as [more Hmore].
  assert (∀ sid, count_active sid (subscriptions db)
                 ≤ count_active sid (subscriptions (run_events evs db))) as Hcount.
  { intros sid. rewrite Hmore, count_active_app.
    pose proof (count_active_nonneg sid more). lia. }
  split_and!; [by exists more|done|].
  intros Hpk s Hs Hfull Hpick.
  apply findBestServer_Some in Hpick as (s' & Hs' & Hid & Hfree).
  rewrite run_events_servers in Hs'.
  assert (s' = s) as -> by (by apply (NoDup_fmap_elem_eq server_id (servers db))).
  specialize (Hcount (server_id s)). lia.
Qed.

Lemma run_events_subscriptions_append_only_witness :
  bool_decide
    (findBestServer
       (run_events
          [BuyAction an_env (a_user "user-2" 43 (Some 10000)) 1;
           Update an_env 77 None]
          store_full)
     = Some "node-a")
  = false.
Proof.
  apply bool_decide_eq_false_2.
  destruct (run_events_subscriptions_append_only
              [BuyAction an_env (a_user "user-2" 43 (Some 10000)) 1;
               Update an_env 77 None]
              store_full) as (_ & _ & Hnever).
  apply (Hnever ltac:(apply (bool_decide_unpack _); by vm_compute)
           (a_server "node-a" 1 true)).
  - unfold store_full. simpl. left.
  - by vm_compute.
Defined.
